(** * hysteresis.base: the mode-dispatching Preisach hysteresis model

    A shallow embedding of [BaseHysteresis] (src/hysteresis/base.py):
    [set_history], [_update_h_history_buffer], [apply_field],
    [_predict_normalized_magnetization], [forward],
    [_check_inside_valid_domain] and [reset_history].

    Modelling conventions.
    - Tensor elements are double-precision floats in the source.  They are
      taken here as exact rationals ([Q]): rounding, infinities and NaN are
      outside the model.  A tensor is its shape and its row-major data.
    - A Python object that is mutated before an exception is raised keeps
      the mutation.  Methods that mutate [self] therefore live in a monad
      that returns the final model together with the outcome.
    - The transform ([hysteresis.transform]), the state functions
      ([hysteresis.states]) and the mesh generator live in other modules of
      the package; they are parameters of the development.  An argument a
      call site leaves out is [None]. *)

From Stdlib Require Import String.
From Stdlib Require Import List Bool QArith Qabs Lia PeanoNat.
Import ListNotations.

Set Implicit Arguments.

(** ** Exceptions and outcomes *)

(** The exception classes raised by the code, with the constant part of
    their message (interpolated values are left out). *)
Inductive PyExc : Type :=
| HysteresisError (msg : string)
| ValueError (msg : string)
| RuntimeError (msg : string)
| AttributeError (attr : string)
| IndexError (msg : string)
| TypeError (msg : string)
| CollaboratorError (component : string).

Inductive result (A : Type) : Type :=
| Ok (a : A)
| Raise (e : PyExc).

Arguments Ok {A} a.
Arguments Raise {A} e.

Definition rbind {A B : Type} (r : result A) (k : A -> result B) : result B :=
  match r with
  | Ok a => k a
  | Raise e => Raise e
  end.

Notation "'let*' x ':=' e 'in' k" := (rbind e (fun x => k))
  (at level 10, x name, e at level 100, k at level 200).

Definition is_ok {A : Type} (r : result A) : bool :=
  match r with Ok _ => true | Raise _ => false end.

(** ** Rational helpers *)

Definition Qltb (x y : Q) : bool := negb (Qle_bool y x).

Definition Qsum (l : list Q) : Q := fold_right Qplus 0%Q l.

(** ** Tensors *)

Module Torch.

Record Tensor : Type := mkTensor { shape : list nat; data : list Q }.

Definition numel (s : list nat) : nat := fold_right Nat.mul 1%nat s.

(** A tensor holds exactly as many elements as its shape says. *)
Definition wf (t : Tensor) : Prop := length (data t) = numel (shape t).

Definition wfb (t : Tensor) : bool := (length (data t) =? numel (shape t))%nat.

Definition rank (t : Tensor) : nat := length (shape t).

Definition shape_eqb (a b : list nat) : bool :=
  if list_eq_dec Nat.eq_dec a b then true else false.

Fixpoint forallb2 {A B : Type} (p : A -> B -> bool) (l : list A) (m : list B) : bool :=
  match l, m with
  | [], [] => true
  | a :: l', b :: m' => p a b && forallb2 p l' m'
  | _, _ => false
  end.

Fixpoint map2 {A B C : Type} (f : A -> B -> C) (l : list A) (m : list B) : list C :=
  match l, m with
  | a :: l', b :: m' => f a b :: map2 f l' m'
  | _, _ => []
  end.

(** [chunks size count d]: the first [count] consecutive blocks of [size]
    elements of [d]. *)
Fixpoint chunks (size count : nat) (d : list Q) : list (list Q) :=
  match count with
  | O => []
  | S c => firstn size d :: chunks size c (skipn size d)
  end.

(** torch.equal: same shape and same elements. *)
Definition equal (a b : Tensor) : bool :=
  shape_eqb (shape a) (shape b) && forallb2 Qeq_bool (data a) (data b).

(** torch.atleast_1d: a 0-dimensional tensor becomes a 1-element vector. *)
Definition atleast_1d (t : Tensor) : Tensor :=
  match shape t with
  | [] => mkTensor [1%nat] (data t)
  | _ => t
  end.

(** torch.cat along dimension 0.  Tensors of shape (0,) are skipped;
    otherwise the tensors must have rank at least 1 and agree on every
    dimension but the first. *)
Definition is_empty_1d (t : Tensor) : bool := shape_eqb (shape t) [0%nat].

Definition cat (a b : Tensor) : result Tensor :=
  if is_empty_1d a then
    match shape b with
    | [] => Raise (RuntimeError "zero-dimensional tensor cannot be concatenated"%string)
    | _ => Ok b
    end
  else if is_empty_1d b then
    match shape a with
    | [] => Raise (RuntimeError "zero-dimensional tensor cannot be concatenated"%string)
    | _ => Ok a
    end
  else
    match shape a, shape b with
    | n :: sa, k :: sb =>
        if shape_eqb sa sb then Ok (mkTensor ((n + k)%nat :: sa) (data a ++ data b))
        else Raise (RuntimeError "Sizes of tensors must match except in dimension 0"%string)
    | [], _ | _, [] =>
        Raise (RuntimeError "zero-dimensional tensor cannot be concatenated"%string)
    end.

(** [t[-1]]: the last slice along dimension 0. *)
Definition select_last (t : Tensor) : result Tensor :=
  match shape t with
  | [] => Raise (IndexError "invalid index of a 0-dim tensor"%string)
  | O :: _ => Raise (IndexError "index -1 is out of bounds for dimension 0 with size 0"%string)
  | S n :: s => Ok (mkTensor s (skipn (n * numel s) (data t)))
  end.

(** [t.unsqueeze(0)] *)
Definition unsqueeze0 (t : Tensor) : Tensor := mkTensor (1%nat :: shape t) (data t).

(** [torch.any(p(t))] for an elementwise predicate. *)
Definition any (p : Q -> bool) (t : Tensor) : bool := existsb p (data t).

(** Broadcasting: shapes are aligned on the right; two dimensions are
    compatible when they are equal or one of them is 1. *)
Fixpoint bshape_rev (a b : list nat) : option (list nat) :=
  match a, b with
  | [], _ => Some b
  | _, [] => Some a
  | x :: a', y :: b' =>
      match bshape_rev a' b' with
      | None => None
      | Some r =>
          if (x =? y)%nat then Some (x :: r)
          else if (x =? 1)%nat then Some (y :: r)
          else if (y =? 1)%nat then Some (x :: r)
          else None
      end
  end.

Definition broadcast_shapes (a b : list nat) : option (list nat) :=
  option_map (@rev nat) (bshape_rev (rev a) (rev b)).

(** [expand_data target src d]: [d] is laid out with shape [src], of the
    rank of [target]; the result is laid out with shape [target], a
    dimension of size 1 being repeated. *)
Fixpoint expand_data (target src : list nat) (d : list Q) : list Q :=
  match target, src with
  | n :: target', k :: src' =>
      if (k =? n)%nat then
        concat (map (expand_data target' src') (chunks (numel src') k d))
      else
        concat (repeat (expand_data target' src' d) n)
  | _, _ => d
  end.

Definition expand (target : list nat) (t : Tensor) : list Q :=
  expand_data target (repeat 1%nat (length target - rank t) ++ shape t) (data t).

(** An elementwise binary operation with broadcasting. *)
Definition binop (f : Q -> Q -> Q) (a b : Tensor) : result Tensor :=
  match broadcast_shapes (shape a) (shape b) with
  | None => Raise (RuntimeError "The size of tensor a must match the size of tensor b"%string)
  | Some s => Ok (mkTensor s (map2 f (expand s a) (expand s b)))
  end.

Definition mul := binop Qmult.
Definition add := binop Qplus.
Definition div := binop Qdiv.

(** torch.allclose with its default tolerances:
    |a - b| <= atol + rtol * |b| for every pair of broadcast elements. *)
Definition rtol : Q := 1 # 100000.
Definition atol : Q := 1 # 100000000.

Definition isclose (a b : Q) : bool :=
  Qle_bool (Qabs (a - b)) (atol + rtol * Qabs b).

Definition allclose (a b : Tensor) : result bool :=
  match broadcast_shapes (shape a) (shape b) with
  | None => Raise (RuntimeError "The size of tensor a must match the size of tensor b"%string)
  | Some s => Ok (forallb2 isclose (expand s a) (expand s b))
  end.

(** [torch.sum(t, dim=-1)]: a 0-dimensional tensor is returned as it is. *)
Definition sum_last (t : Tensor) : Tensor :=
  match rev (shape t) with
  | [] => t
  | m :: r =>
      mkTensor (rev r) (map Qsum (chunks m (numel (rev r)) (data t)))
  end.

(** [torch.sum(t)]: a 0-dimensional tensor. *)
Definition sum_all (t : Tensor) : Tensor := mkTensor [] [Qsum (data t)].

(** [t.reshape(s)] *)
Definition reshape (t : Tensor) (s : list nat) : result Tensor :=
  if (numel s =? length (data t))%nat then Ok (mkTensor s (data t))
  else Raise (RuntimeError "shape is invalid for input size"%string).

(** [-t] *)
Definition neg (t : Tensor) : Tensor := mkTensor (shape t) (map Qopp (data t)).

(** [torch.zeros(n)] *)
Definition zeros (n : nat) : Tensor := mkTensor [n] (repeat 0%Q n).

(** [t[:, idx]]: the slice at index [idx] of dimension 1. *)
Definition select_column (t : Tensor) (idx : nat) : result Tensor :=
  match shape t with
  | n :: c :: rest =>
      if (idx <? c)%nat then
        Ok (mkTensor (n :: rest)
              (concat (map (fun row => firstn (numel rest) (skipn (idx * numel rest) row))
                         (chunks (c * numel rest) n (data t)))))
      else Raise (IndexError "index is out of bounds for dimension 1"%string)
  | _ => Raise (IndexError "too many indices for tensor"%string)
  end.

End Torch.

Import Torch.

(** ** Modes, the transform and the model *)

(** The mode enumeration of [hysteresis.modes].  The final [else] branch
    of [forward] (a mode outside the enumeration) has no value of this type
    to run on. *)
Inductive Mode : Type := FITTING | REGRESSION | NEXT | FUTURE | CURRENT.

Definition Mode_eqb (a b : Mode) : bool :=
  match a, b with
  | FITTING, FITTING | REGRESSION, REGRESSION | NEXT, NEXT
  | FUTURE, FUTURE | CURRENT, CURRENT => true
  | _, _ => false
  end.

Lemma Mode_eqb_eq (a b : Mode) : Mode_eqb a b = true <-> a = b.
Proof. destruct a, b; simpl; split; intros H; congruence. Qed.

(** The interface of [HysteresisTransform] that [BaseHysteresis] uses:
    [transform(h, m=None)] and [untransform(h, m=None)] return a pair whose
    second component may be [None], and [domain] is the pair (min, max). *)
Record HysteresisTransform : Type := mkTransform {
  transform : Tensor -> option Tensor -> Tensor * option Tensor;
  untransform : Tensor -> option Tensor -> Tensor * option Tensor;
  domain : Q * Q
}.

(** The attributes of a [BaseHysteresis] instance.  The three buffers
    [_history_h], [_history_m] and [_states] are [None] while the attribute
    does not exist.  [hysterion_density], [offset], [scale] and [slope] are
    the constrained values the properties of the same name return. *)
Record BaseHysteresis : Type := mkModel {
  fixed_scaling : bool;
  transformer : HysteresisTransform;
  _trainable : bool;
  temp : Q;
  mesh_points : list (Q * Q);
  hysterion_density : Tensor;
  offset : Tensor;
  scale : Tensor;
  slope : Tensor;
  polynomial_degree : nat;
  polynomial_fit_iterations : nat;
  _fixed_domain : option Tensor;
  mode : Mode;
  _history_h : option Tensor;
  _history_m : option Tensor;
  _states : option Tensor
}.

Definition with_transformer (self : BaseHysteresis) (t : HysteresisTransform) :=
  mkModel (fixed_scaling self) t (_trainable self) (temp self)
    (mesh_points self) (hysterion_density self) (offset self) (scale self)
    (slope self) (polynomial_degree self) (polynomial_fit_iterations self)
    (_fixed_domain self) (mode self) (_history_h self) (_history_m self)
    (_states self).

Definition with_mode (self : BaseHysteresis) (m : Mode) :=
  mkModel (fixed_scaling self) (transformer self) (_trainable self) (temp self)
    (mesh_points self) (hysterion_density self) (offset self) (scale self)
    (slope self) (polynomial_degree self) (polynomial_fit_iterations self)
    (_fixed_domain self) m (_history_h self) (_history_m self) (_states self).

Definition with_history_h (self : BaseHysteresis) (h : option Tensor) :=
  mkModel (fixed_scaling self) (transformer self) (_trainable self) (temp self)
    (mesh_points self) (hysterion_density self) (offset self) (scale self)
    (slope self) (polynomial_degree self) (polynomial_fit_iterations self)
    (_fixed_domain self) (mode self) h (_history_m self) (_states self).

Definition with_history_m (self : BaseHysteresis) (m : option Tensor) :=
  mkModel (fixed_scaling self) (transformer self) (_trainable self) (temp self)
    (mesh_points self) (hysterion_density self) (offset self) (scale self)
    (slope self) (polynomial_degree self) (polynomial_fit_iterations self)
    (_fixed_domain self) (mode self) (_history_h self) m (_states self).

Definition with_states (self : BaseHysteresis) (st : option Tensor) :=
  mkModel (fixed_scaling self) (transformer self) (_trainable self) (temp self)
    (mesh_points self) (hysterion_density self) (offset self) (scale self)
    (slope self) (polynomial_degree self) (polynomial_fit_iterations self)
    (_fixed_domain self) (mode self) (_history_h self) (_history_m self) st.

(** ** The raise sites of base.py *)

Module Exc.
Local Open Scope string_scope.

Definition history_h_not_1d : PyExc := ValueError "history_h must be a 1D tensor".
Definition history_m_not_1d : PyExc := ValueError "history_m must be a 1D tensor".
Definition train_h_m_equal : PyExc := RuntimeError "train h and train m cannot be equal".
Definition must_specify_field : PyExc :=
  HysteresisError "must specify field when not using CURRENT mode".
Definition no_training_data : PyExc :=
  RuntimeError "no training.py data supplied to do fitting! Try using FUTURE mode instead OR set data using set_history()".
Definition history_shape_mismatch : PyExc :=
  HysteresisError "history datasets must match shape for fitting".
Definition must_regress_on_history : PyExc :=
  HysteresisError "must do regression on history fields if in FITTING mode".
Definition no_history_data : PyExc :=
  HysteresisError "no history data to determine current state! Try using FUTURE mode instead OR set data using set_history()/apply_field()".
Definition future_not_1d : PyExc := ValueError "input must be 1D for FUTURE mode".
Definition outside_domain : PyExc :=
  HysteresisError "Argument values are not inside valid domain for this model!".
Definition none_type (attr : string) : PyExc :=
  AttributeError ("NoneType object has no attribute " ++ attr).
Definition none_tensor : PyExc := TypeError "expected a Tensor, got None".

End Exc.

(** The error taxonomy of the specification, as predicates on raise sites. *)

(** Modelled from the spec: "Configuration error: malformed construction
    arguments (non-1D history, h identical to m, mismatched shapes)". *)
Definition configuration_error (e : PyExc) : Prop :=
  e = Exc.history_h_not_1d \/ e = Exc.history_m_not_1d \/ e = Exc.train_h_m_equal.

(** Modelled from the spec: "Domain error: input values outside the valid
    normalized/physical domain beyond tolerance". *)
Definition domain_error (e : PyExc) : Prop := e = Exc.outside_domain.

(** Modelled from the spec: "Mode-consistency error: forward() called in a
    mode whose precondition is unmet (e.g. FITTING without history, FITTING
    with mismatched x, CURRENT without history)". *)
Definition mode_consistency_error (e : PyExc) : Prop :=
  e = Exc.must_specify_field \/ e = Exc.no_training_data \/
  e = Exc.history_shape_mismatch \/ e = Exc.must_regress_on_history \/
  e = Exc.no_history_data \/ e = Exc.future_not_1d.

(** The class [HysteresisError] of base.py. *)
Definition is_HysteresisError (e : PyExc) : bool :=
  match e with HysteresisError _ => true | _ => false end.

(** ** Methods that mutate the model *)

Definition M (A : Type) : Type := BaseHysteresis -> BaseHysteresis * result A.

Definition ret {A : Type} (a : A) : M A := fun self => (self, Ok a).

Definition raise {A : Type} (e : PyExc) : M A := fun self => (self, Raise e).

Definition bind {A B : Type} (m : M A) (k : A -> M B) : M B :=
  fun self =>
    match m self with
    | (self', Ok a) => k a self'
    | (self', Raise e) => (self', Raise e)
    end.

Definition get : M BaseHysteresis := fun self => (self, Ok self).

Definition modify (f : BaseHysteresis -> BaseHysteresis) : M unit :=
  fun self => (f self, Ok tt).

Definition lift {A : Type} (r : result A) : M A := fun self => (self, r).

Notation "x <- e ;; k" := (bind e (fun x => k))
  (at level 61, e at next level, right associativity).
Notation "e ;;; k" := (bind e (fun _ => k))
  (at level 61, right associativity).

Definition getattr (name : string) (v : option Tensor) : result Tensor :=
  match v with
  | Some t => Ok t
  | None => Raise (AttributeError name)
  end.

(** [del self.name] for a buffer: an [AttributeError] when it does not
    exist. *)
Definition delattr (name : string) (v : BaseHysteresis -> option Tensor)
    (clear : BaseHysteresis -> BaseHysteresis) : M unit :=
  fun self =>
    match v self with
    | Some _ => (clear self, Ok tt)
    | None => (self, Raise (AttributeError name))
    end.

Definition isSome {A : Type} (o : option A) : bool :=
  match o with Some _ => true | None => false end.

(** ** The methods of [BaseHysteresis] *)

Section Model.

(** [hysteresis.states.get_states(h, mesh_points, current_state=None,
    current_field=None, temp=...)] and [predict_batched_state] with the same
    arguments; [None] stands for an exception raised inside the function. *)
Variable get_states :
  Tensor -> list (Q * Q) -> option Tensor -> option Tensor -> Q -> option Tensor.
Variable predict_batched_state :
  Tensor -> list (Q * Q) -> option Tensor -> option Tensor -> Q -> option Tensor.

(** [HysteresisTransform(train_h, train_m, fixed_domain, polynomial_degree,
    polynomial_fit_iterations)] *)
Variable HysteresisTransform_new :
  option Tensor -> option Tensor -> option Tensor -> nat -> nat -> HysteresisTransform.

Definition call (component : string) (r : option Tensor) : result Tensor :=
  match r with
  | Some t => Ok t
  | None => Raise (CollaboratorError component)
  end.

(** [valid_domain] property *)
Definition valid_domain (self : BaseHysteresis) : Q * Q := domain (transformer self).

(** [hasattr(self, "history_h")].  [history_h] is a property that reads
    [self._history_h]: without that buffer the getter raises
    [AttributeError] and [hasattr] answers [False]; with it the getter
    returns the untransformed history. *)
Definition hasattr_history_h (self : BaseHysteresis) : bool := isSome (_history_h self).

(** [history_h] property *)
Definition history_h (self : BaseHysteresis) : result Tensor :=
  let* h := getattr "_history_h" (_history_h self) in
  Ok (fst (untransform (transformer self) h None)).

Definition machine_error : Q := 1 # 10000.

Definition _check_inside_valid_domain (self : BaseHysteresis) (values : Tensor)
  : result unit :=
  if any (fun v => Qltb v (fst (valid_domain self) - machine_error)) values
     || any (fun v => Qltb (snd (valid_domain self) + machine_error) v) values
  then Raise Exc.outside_domain
  else Ok tt.

Definition _predict_normalized_magnetization (self : BaseHysteresis)
    (states h : Tensor) : result Tensor :=
  let* weighted := mul (hysterion_density self) states in
  let* m := div (sum_last weighted) (sum_all (hysterion_density self)) in
  let* m_h := reshape m (shape h) in
  let* scaled := mul (scale self) m_h in
  let* shifted := add scaled (offset self) in
  let* trend := mul h (slope self) in
  add shifted trend.

Definition require_tensor (x : option Tensor) : result Tensor :=
  match x with
  | Some t => Ok t
  | None => Raise Exc.none_tensor
  end.

Definition forward (self : BaseHysteresis) (x : option Tensor) (return_real : bool)
  : result (option Tensor) :=
  let* _ :=
    match x with
    | Some xt => _check_inside_valid_domain self xt
    | None =>
        if negb (Mode_eqb (mode self) CURRENT)
        then Raise Exc.must_specify_field
        else Ok tt
    end in
  (* get current state/field if available *)
  let* current :=
    if hasattr_history_h self then
      let* h := getattr "_history_h" (_history_h self) in
      let* current_fld := select_last h in
      let* st := getattr "_states" (_states self) in
      let* current_state := select_last st in
      Ok (Some current_state, Some current_fld)
    else Ok (None, None) in
  let current_state := fst current in
  let current_fld := snd current in
  let* states_norm_h :=
    match mode self with
    | FITTING =>
        if negb (hasattr_history_h self) then Raise Exc.no_training_data
        else
          let* hh := getattr "_history_h" (_history_h self) in
          let* hm := getattr "_history_m" (_history_m self) in
          if negb (shape_eqb (shape hh) (shape hm))
          then Raise Exc.history_shape_mismatch
          else
            let* xt := require_tensor x in
            let* close := allclose xt (fst (untransform (transformer self) hh None)) in
            if negb close then Raise Exc.must_regress_on_history
            else
              let* states := getattr "_states" (_states self) in
              Ok (states, hh)
    | REGRESSION =>
        let* xt := require_tensor x in
        let norm_h := fst (transform (transformer self) xt None) in
        let* states :=
          call "get_states" (get_states norm_h (mesh_points self) None None (temp self)) in
        Ok (states, norm_h)
    | CURRENT =>
        if negb (hasattr_history_h self) then Raise Exc.no_history_data
        else
          match current_state, current_fld with
          | Some cs, Some cf => Ok (unsqueeze0 cs, unsqueeze0 cf)
          | _, _ => Raise (Exc.none_type "unsqueeze")
          end
    | FUTURE =>
        let* xt := require_tensor x in
        if negb (rank xt =? 1)%nat then Raise Exc.future_not_1d
        else
          let norm_h := fst (transform (transformer self) xt None) in
          let* states :=
            call "get_states"
              (get_states norm_h (mesh_points self) current_state current_fld (temp self)) in
          Ok (states, norm_h)
    | NEXT =>
        let* xt := require_tensor x in
        let norm_h := fst (transform (transformer self) xt None) in
        let* states :=
          call "predict_batched_state"
            (predict_batched_state norm_h (mesh_points self) current_state current_fld
               (temp self)) in
        Ok (states, norm_h)
    end in
  let states := fst states_norm_h in
  let norm_h := snd states_norm_h in
  (* return values w/or w/o normalization *)
  let* m := _predict_normalized_magnetization self states norm_h in
  if return_real
  then Ok (snd (untransform (transformer self) norm_h (Some m)))
  else Ok (Some m).

Definition _update_h_history_buffer (norm_history_h : Tensor) : M unit :=
  modify (fun self => with_history_h self (Some norm_history_h)) ;;;
  self <- get ;;
  h <- lift (getattr "_history_h" (_history_h self)) ;;
  (* recalculate states *)
  _states <- lift (call "get_states" (get_states h (mesh_points self) None None (temp self))) ;;
  modify (fun self => with_states self (Some _states)).

(** [ModeModule.regression()]: Modelled from the spec: "temporarily
    switching to REGRESSION-style evaluation"; the method assigns the mode. *)
Definition regression : M unit := modify (fun self => with_mode self REGRESSION).

(** [set_history(history_h, history_m=None)] for a tensor [history_h]. *)
Definition set_history (history_h : Tensor) (history_m : option Tensor) : M unit :=
  self <- get ;;
  (if _trainable self && negb (fixed_scaling self)
   then modify (fun self =>
          with_transformer self
            (HysteresisTransform_new (Some history_h) history_m (_fixed_domain self)
               (polynomial_degree self) (polynomial_fit_iterations self)))
   else ret tt) ;;;
  (if negb (rank history_h =? 1)%nat then raise Exc.history_h_not_1d else ret tt) ;;;
  match history_m with
  | Some m =>
      (if negb (rank history_h =? 1)%nat then raise Exc.history_m_not_1d else ret tt) ;;;
      (if equal history_h m then raise Exc.train_h_m_equal else ret tt)
  | None => ret tt
  end ;;;
  self <- get ;;
  let _history_h := fst (transform (transformer self) history_h history_m) in
  let _history_m := snd (transform (transformer self) history_h history_m) in
  _update_h_history_buffer _history_h ;;;
  _history_m <-
    match _history_m with
    | Some t => ret t
    | None =>
        self <- get ;;
        let old_mode := mode self in
        regression ;;;
        self <- get ;;
        r <- lift (forward self (Some history_h) false) ;;
        modify (fun self => with_mode self old_mode) ;;;
        match r with
        | Some t => ret t
        | None => raise (Exc.none_type "detach")
        end
    end ;;
  modify (fun self => with_history_m self (Some _history_m)).

(** [apply_field(h)] for a tensor [h]. *)
Definition apply_field (h : Tensor) : M unit :=
  let h := atleast_1d h in
  self <- get ;;
  lift (_check_inside_valid_domain self h) ;;;
  _history_h <-
    (if isSome (_history_h self) then
       old <- lift (getattr "_history_h" (_history_h self)) ;;
       lift (cat old (fst (transform (transformer self) h None)))
     else ret (fst (transform (transformer self) h None))) ;;
  _update_h_history_buffer _history_h.

Definition reset_history : M unit :=
  delattr "_history_h" _history_h (fun self => with_history_h self None) ;;;
  delattr "_history_m" _history_m (fun self => with_history_m self None).

(** [get_negative_saturation()] *)
Definition get_negative_saturation (self : BaseHysteresis) : result Tensor :=
  let* m := add (neg (scale self)) (offset self) in
  match snd (untransform (transformer self) (zeros 1) (Some m)) with
  | Some real_m => Ok real_m
  | None => Raise (Exc.none_type "to")
  end.

(** *** The loops of [ExactHybridGP] over its hysteresis models
    (src/hysteresis/hybrid.py)

    [for idx, hyst_model in enumerate(self.hysteresis_models): body].  The
    models of the list are distinct objects (the constructor rejects a list
    with a repeated model), so the list of their states is the store.  A
    model that raises stops the loop; the models before it keep what the
    loop did to them. *)
Fixpoint enumerate_models (body : nat -> M unit) (idx : nat)
    (hysteresis_models : list BaseHysteresis)
  : list BaseHysteresis * result unit :=
  match hysteresis_models with
  | [] => ([], Ok tt)
  | hyst_model :: rest =>
      match body idx hyst_model with
      | (hyst_model', Ok _) =>
          let (rest', r) := enumerate_models body (S idx) rest in
          (hyst_model' :: rest', r)
      | (hyst_model', Raise e) => (hyst_model' :: rest, Raise e)
      end
  end.

(** [ExactHybridGP._set_hysteresis_model_train_data(train_h)] *)
Definition _set_hysteresis_model_train_data (train_h : Tensor)
    (hysteresis_models : list BaseHysteresis) : list BaseHysteresis * result unit :=
  enumerate_models
    (fun idx => column <- lift (select_column train_h idx) ;; set_history column None)
    0 hysteresis_models.

(** [ExactHybridGP.apply_fields(x)] *)
Definition apply_fields (x : Tensor) (hysteresis_models : list BaseHysteresis)
  : list BaseHysteresis * result unit :=
  enumerate_models
    (fun idx => column <- lift (select_column x idx) ;; apply_field column)
    0 hysteresis_models.

End Model.

(** ** Sample collaborators

    Concrete stand-ins for the collaborators, used to run the methods on
    explicit inputs. *)

Module Sample.

(** Modelled from the spec: the state function of hysteresis.states is not
    among the sources.  "Rising field past alpha forces the hysteron up;
    falling field past beta forces it down; otherwise state is retained from
    the previous step", in the zero-temperature limit, with states in [0,1]
    and negative saturation (all down) as the start when no current state is
    given. *)
Definition relay (point : Q * Q) (prev h : Q) : Q :=
  if Qle_bool (fst point) h then 1%Q
  else if Qle_bool h (snd point) then 0%Q
  else prev.

Fixpoint replay (mesh : list (Q * Q)) (prev : list Q) (hs : list Q) : list (list Q) :=
  match hs with
  | [] => []
  | h :: hs' =>
      let row := map2 (fun point st => relay point st h) mesh prev in
      row :: replay mesh row hs'
  end.

Definition start (mesh : list (Q * Q)) (current_state : option Tensor) : list Q :=
  match current_state with
  | Some c =>
      if (length (data c) =? length mesh)%nat then data c
      else repeat 0%Q (length mesh)
  | None => repeat 0%Q (length mesh)
  end.

(** Modelled from the spec: "malformed shapes (history not 1D ...) are
    rejected before computation"; the result is a matrix [n, |mesh|]. *)
Definition get_states (h : Tensor) (mesh : list (Q * Q))
    (current_state current_field : option Tensor) (temp : Q) : option Tensor :=
  if ((rank h =? 1)%nat && wfb h)%bool then
    Some (mkTensor [length (data h); length mesh]
            (concat (replay mesh (start mesh current_state) (data h))))
  else None.

(** Modelled from the spec: "Each candidate in the batch is evaluated
    independently, as a single-step continuation from the same shared
    current_state/current_field". *)
Definition predict_batched_state (h : Tensor) (mesh : list (Q * Q))
    (current_state current_field : option Tensor) (temp : Q) : option Tensor :=
  if ((rank h =? 1)%nat && wfb h)%bool then
    Some (mkTensor [length (data h); length mesh]
            (concat (map (fun v =>
                            map2 (fun point st => relay point st v) mesh
                              (start mesh current_state))
                         (data h))))
  else None.

Definition tmap (f : Q -> Q) (t : Tensor) : Tensor := mkTensor (shape t) (map f (data t)).

(** Modelled from the spec: the transform is "a black-box bijective/affine
    transform"; this one maps the domain [-1, 1] onto [0, 1] and leaves the
    magnetization as it is. *)
Definition affine : HysteresisTransform :=
  mkTransform
    (fun h m => (tmap (fun v => (v + 1) / 2) h, m))
    (fun h m => (tmap (fun v => 2 * v - 1) h, m))
    (-1, 1)%Q.

Definition HysteresisTransform_new (train_h train_m fixed_domain : option Tensor)
    (polynomial_degree polynomial_fit_iterations : nat) : HysteresisTransform :=
  affine.

Definition vec (l : list Q) : Tensor := mkTensor [length l] l.

Definition mesh3 : list (Q * Q) := [(1 # 2, 1 # 4); (3 # 4, 1 # 2); (1, 0)]%Q.

(** A model without history, with the parameter values [__init__] sets:
    density 1/2 at every mesh point, offset 0, scale 1, slope 1. *)
Definition fresh (m : Mode) : BaseHysteresis :=
  mkModel false affine true (1 # 100) mesh3
    (vec [1 # 2; 1 # 2; 1 # 2]%Q) (vec [0%Q]) (vec [1%Q]) (vec [1%Q])
    1 3000 None m None None None.

(** Histories used to run the methods. *)
Definition h3 : Tensor := vec [-1; 0; 1 # 2]%Q.
Definition m3 : Tensor := vec [0; 1 # 2; 1]%Q.
Definition m3_column : Tensor := mkTensor [3%nat; 1%nat] [0; 1 # 2; 1]%Q.

Definition run {A : Type} (m : M A) (self : BaseHysteresis) : BaseHysteresis := fst (m self).
Definition outcome {A : Type} (m : M A) (self : BaseHysteresis) : result A := snd (m self).

Definition set_history := set_history get_states predict_batched_state HysteresisTransform_new.
Definition apply_field := apply_field get_states.
Definition forward := forward get_states predict_batched_state.


(** A model in mode [m] after [set_history(h3, m3)]. *)
Definition trained (m : Mode) : BaseHysteresis := run (set_history h3 (Some m3)) (fresh m).

(** The same model in FITTING mode after a further [apply_field(0.8)]. *)
Definition extended : BaseHysteresis :=
  run (apply_field (mkTensor [] [4 # 5]%Q)) (trained FITTING).


(** A model whose stored field history is empty. *)
Definition emptied : BaseHysteresis :=
  run (set_history (vec []) (Some m3)) (fresh REGRESSION).

(** A model with a field history and no magnetization history. *)
Definition field_only : BaseHysteresis :=
  run (apply_field (vec [1 # 5]%Q)) (fresh CURRENT).

(** The density of [fresh] doubled. *)
Definition doubled (m : Mode) : BaseHysteresis :=
  mkModel false affine true (1 # 100) mesh3
    (mkTensor [3%nat] (map (Qmult 2) [1 # 2; 1 # 2; 1 # 2]%Q))
    (vec [0%Q]) (vec [1%Q]) (vec [1%Q]) 1 3000 None m None None None.

(** Inputs of the hybrid model: one row for two models, one row for one
    model, and three rows for two models. *)
Definition row2 : Tensor := mkTensor [1%nat; 2%nat] [1 # 5; 3 # 10]%Q.
Definition row1 : Tensor := mkTensor [1%nat; 1%nat] [1 # 5]%Q.
Definition train2 : Tensor :=
  mkTensor [3%nat; 2%nat] [-1; 0; 0; 1 # 4; 1 # 2; 1 # 2]%Q.

Definition apply_fields := apply_fields get_states.
Definition set_train_data :=
  _set_hysteresis_model_train_data get_states predict_batched_state
    HysteresisTransform_new.

End Sample.

(** ** The prediction formula of the specification *)

(** Stated from the specification, to be compared with
    [_predict_normalized_magnetization]: "weighted average of hysteron
    states by density, normalized by total density, then
    affine-transformed: m_norm = scale * (sum_j density_j * state_j /
    sum_j density_j) + offset + slope * h". *)
Definition weighted_average (density row : list Q) : Q :=
  (Qsum (map2 Qmult density row) / Qsum density)%Q.

Definition m_norm (scale offset slope : Q) (density row : list Q) (h : Q) : Q :=
  (scale * weighted_average density row + offset + slope * h)%Q.

(** The parameter shapes [__init__] sets up: one density per mesh point and
    one-element tensors for offset, scale and slope. *)
Definition param (t : Tensor) (v : Q) : Prop := t = mkTensor [1%nat] [v].

Definition density_ok (self : BaseHysteresis) : Prop :=
  shape (hysterion_density self) = [length (mesh_points self)] /\
  wf (hysterion_density self).

(** The cache invariant: the stored normalized history is a vector of
    [n] fields and the cached state matrix has one row per field and one
    column per mesh point. *)
Definition cached (n : nat) (self : BaseHysteresis) : Prop :=
  exists h st,
    _history_h self = Some h /\ _states self = Some st /\
    shape h = [n] /\ wf h /\
    shape st = [n; length (mesh_points self)] /\ wf st.

(** Whenever a field history is stored, the cache invariant holds for it. *)
Definition cache_ok (self : BaseHysteresis) : Prop :=
  _history_h self <> None -> exists n, cached n self.

(** The contract of the state functions, from the specification:
    "compute_states(history_h: seq[float], mesh, ...) -> matrix[n, |mesh|]"
    and "malformed shapes (history not 1D ...) are rejected before
    computation". *)
Definition states_contract (f : Tensor -> list (Q * Q) -> option Tensor ->
                                option Tensor -> Q -> option Tensor) : Prop :=
  forall h mesh current_state current_field temp st,
    f h mesh current_state current_field temp = Some st ->
    exists n, shape h = [n] /\ wf h /\ shape st = [n; length mesh] /\ wf st.

(** A state function that accepts every well-formed 1-D history. *)
Definition states_total (f : Tensor -> list (Q * Q) -> option Tensor ->
                             option Tensor -> Q -> option Tensor) : Prop :=
  forall h mesh current_state current_field temp n,
    shape h = [n] -> wf h ->
    f h mesh current_state current_field temp <> None.

(** * Properties *)

(** ** Facts about tensors *)

Lemma Qltb_lt (x y : Q) : Qltb x y = true <-> (x < y)%Q.
Proof.
  unfold Qltb. rewrite negb_true_iff. split.
  - intros H. apply Qnot_le_lt. intros Hle.
    apply Qle_bool_iff in Hle. congruence.
  - intros H. destruct (Qle_bool y x) eqn:E; [|reflexivity].
    apply Qle_bool_iff in E. exfalso. exact (Qlt_not_le _ _ H E).
Qed.

Lemma shape_eqb_eq (a b : list nat) : shape_eqb a b = true <-> a = b.
Proof.
  unfold shape_eqb. destruct (list_eq_dec Nat.eq_dec a b); split; congruence.
Qed.

Lemma shape_eqb_refl (a : list nat) : shape_eqb a a = true.
Proof. apply shape_eqb_eq. reflexivity. Qed.

Lemma numel_vec (n : nat) : numel [n] = n.
Proof. simpl. lia. Qed.

Lemma chunks_length (size count : nat) (d : list Q) :
  length (chunks size count d) = count.
Proof.
  revert d. induction count as [|c IH]; intros d; simpl; [reflexivity|].
  now rewrite IH.
Qed.

Lemma concat_chunks (size count : nat) (d : list Q) :
  length d = (count * size)%nat -> concat (chunks size count d) = d.
Proof.
  revert d. induction count as [|c IH]; intros d Hd; simpl in *.
  - now destruct d.
  - rewrite IH.
    + apply firstn_skipn.
    + rewrite length_skipn. lia.
Qed.

Lemma chunks_Forall_length (size count : nat) (d : list Q) :
  length d = (count * size)%nat ->
  Forall (fun row => length row = size) (chunks size count d).
Proof.
  revert d. induction count as [|c IH]; intros d Hd; simpl in *.
  - constructor.
  - constructor.
    + rewrite length_firstn. lia.
    + apply IH. rewrite length_skipn. lia.
Qed.

Lemma chunks_concat (size : nat) (rows : list (list Q)) :
  Forall (fun row => length row = size) rows ->
  chunks size (length rows) (concat rows) = rows.
Proof.
  induction 1 as [|row rows Hrow _ IH]; simpl; [reflexivity|].
  rewrite firstn_app, Hrow, Nat.sub_diag, firstn_all2 by lia.
  simpl. rewrite app_nil_r.
  rewrite skipn_app, Hrow, Nat.sub_diag, skipn_all2 by lia.
  simpl. now rewrite IH.
Qed.

Lemma map_id_Forall {A : Type} (f : A -> A) (P : A -> Prop) (l : list A) :
  (forall a, P a -> f a = a) -> Forall P l -> map f l = l.
Proof.
  intros Hf. induction 1 as [|a l Ha _ IH]; simpl; [reflexivity|].
  now rewrite Hf, IH.
Qed.

(** Expanding a well-formed tensor to its own shape changes nothing. *)
Lemma expand_data_id (s : list nat) (d : list Q) :
  length d = numel s -> expand_data s s d = d.
Proof.
  revert d. induction s as [|n s IH]; intros d Hd; simpl in *; [reflexivity|].
  rewrite Nat.eqb_refl.
  rewrite (map_id_Forall (expand_data s s) (P := fun row => length row = numel s)).
  - apply concat_chunks. lia.
  - exact IH.
  - apply chunks_Forall_length. lia.
Qed.

Lemma expand_id (t : Tensor) : wf t -> expand (shape t) t = data t.
Proof.
  intros H. unfold expand, rank. rewrite Nat.sub_diag. simpl.
  now apply expand_data_id.
Qed.

Lemma concat_repeat_singleton (v : Q) (n : nat) :
  concat (repeat [v] n) = repeat v n.
Proof. induction n as [|n IH]; simpl; [reflexivity|]. now rewrite IH. Qed.

(** A one-element tensor of shape (1,) or () is repeated along a vector. *)
Lemma expand_data_one (n : nat) (v : Q) :
  expand_data [n] [1%nat] [v] = repeat v n.
Proof.
  simpl. destruct n as [|[|n]]; simpl; try reflexivity.
  now rewrite concat_repeat_singleton.
Qed.

(** A vector is repeated along the rows of a matrix. *)
Lemma expand_data_row (n m : nat) (d : list Q) :
  length d = m -> expand_data [n; m] [1%nat; m] d = concat (repeat d n).
Proof.
  intros Hd.
  assert (Hid : expand_data [m] [m] d = d)
    by (apply expand_data_id; rewrite numel_vec; exact Hd).
  change (expand_data [n; m] [1%nat; m] d)
    with (if (1 =? n)%nat
          then concat (map (expand_data [m] [m]) (chunks (numel [m]) 1 d))
          else concat (repeat (expand_data [m] [m] d) n)).
  rewrite Hid.
  destruct (1 =? n)%nat eqn:E.
  - apply Nat.eqb_eq in E. subst n.
    rewrite numel_vec. cbn [chunks map concat repeat].
    rewrite firstn_all2 by lia. rewrite Hid. reflexivity.
  - reflexivity.
Qed.

Lemma bshape_vec_matrix (n m : nat) : broadcast_shapes [m] [n; m] = Some [n; m].
Proof. unfold broadcast_shapes. simpl. now rewrite Nat.eqb_refl. Qed.

Lemma bshape_same (s : list nat) : broadcast_shapes s s = Some s.
Proof.
  unfold broadcast_shapes.
  assert (H : forall r, bshape_rev r r = Some r).
  { induction r as [|x r IH]; simpl; [reflexivity|].
    now rewrite IH, Nat.eqb_refl. }
  rewrite H. simpl. now rewrite rev_involutive.
Qed.

Lemma bshape_one_vec (n : nat) : broadcast_shapes [1%nat] [n] = Some [n].
Proof.
  unfold broadcast_shapes. simpl.
  destruct n as [|[|n]]; reflexivity.
Qed.

Lemma bshape_vec_one (n : nat) : broadcast_shapes [n] [1%nat] = Some [n].
Proof.
  unfold broadcast_shapes. simpl.
  destruct n as [|[|n]]; reflexivity.
Qed.

Lemma bshape_vec_scalar (n : nat) : broadcast_shapes [n] [] = Some [n].
Proof. reflexivity. Qed.

Lemma map2_repeat_l {A B C : Type} (f : A -> B -> C) (a : A) (l : list B) :
  map2 f (repeat a (length l)) l = map (f a) l.
Proof. induction l as [|b l IH]; simpl; [reflexivity|]. now rewrite IH. Qed.

Lemma map2_repeat_r {A B C : Type} (f : A -> B -> C) (b : B) (l : list A) :
  map2 f l (repeat b (length l)) = map (fun a => f a b) l.
Proof. induction l as [|a l IH]; simpl; [reflexivity|]. now rewrite IH. Qed.

Lemma map2_length {A B C : Type} (f : A -> B -> C) (l : list A) (m : list B) :
  length l = length m -> length (map2 f l m) = length l.
Proof.
  revert m. induction l as [|a l IH]; intros [|b m] H; simpl in *; try lia.
  rewrite IH; lia.
Qed.

Lemma map2_app {A B C : Type} (f : A -> B -> C) (l1 l2 : list A) (m1 m2 : list B) :
  length l1 = length m1 ->
  map2 f (l1 ++ l2) (m1 ++ m2) = map2 f l1 m1 ++ map2 f l2 m2.
Proof.
  revert m1. induction l1 as [|a l1 IH]; intros [|b m1] H; simpl in *; try lia.
  - reflexivity.
  - rewrite IH; [reflexivity|lia].
Qed.

(** Multiplying the rows of a matrix by one vector, row by row. *)
Lemma map2_rows (f : Q -> Q -> Q) (d : list Q) (n : nat) (x : list Q) :
  length x = (n * length d)%nat ->
  map2 f (concat (repeat d n)) x = concat (map (map2 f d) (chunks (length d) n x)).
Proof.
  revert x. induction n as [|n IH]; intros x Hx; simpl in *.
  - reflexivity.
  - rewrite <- (firstn_skipn (length d) x) at 1.
    rewrite map2_app by (rewrite length_firstn; lia).
    rewrite IH by (rewrite length_skipn; lia).
    reflexivity.
Qed.

Lemma binop_same (f : Q -> Q -> Q) (a b : Tensor) :
  shape a = shape b -> wf a -> wf b ->
  binop f a b = Ok (mkTensor (shape a) (map2 f (data a) (data b))).
Proof.
  intros Hs Ha Hb. unfold binop. rewrite <- Hs, bshape_same.
  rewrite expand_id by exact Ha.
  rewrite Hs, expand_id by exact Hb. reflexivity.
Qed.

Lemma expand_one (n : nat) (s : list nat) (v : Q) :
  s = [1%nat] \/ s = [] -> expand [n] (mkTensor s [v]) = repeat v n.
Proof.
  intros [-> | ->]; unfold expand, rank; cbn [shape data length Nat.sub repeat app];
    apply expand_data_one.
Qed.

Lemma binop_one_vec (f : Q -> Q -> Q) (v : Q) (b : Tensor) (n : nat) :
  shape b = [n] -> wf b ->
  binop f (mkTensor [1%nat] [v]) b = Ok (mkTensor [n] (map (f v) (data b))).
Proof.
  intros Hs Hb. unfold binop. cbn [shape]. rewrite Hs, bshape_one_vec.
  rewrite expand_one by now left.
  rewrite <- Hs, expand_id by exact Hb.
  assert (Hn : n = length (data b)) by (red in Hb; rewrite Hb, Hs, numel_vec; reflexivity).
  rewrite Hn at 1. now rewrite map2_repeat_l.
Qed.

Lemma binop_vec_one (f : Q -> Q -> Q) (a : Tensor) (v : Q) (n : nat) :
  shape a = [n] -> wf a ->
  binop f a (mkTensor [1%nat] [v]) = Ok (mkTensor [n] (map (fun x => f x v) (data a))).
Proof.
  intros Hs Ha. unfold binop. cbn [shape]. rewrite Hs, bshape_vec_one.
  rewrite expand_one by now left.
  rewrite <- Hs, expand_id by exact Ha.
  assert (Hn : n = length (data a)) by (red in Ha; rewrite Ha, Hs, numel_vec; reflexivity).
  rewrite Hn at 1. now rewrite map2_repeat_r.
Qed.

Lemma binop_vec_scalar (f : Q -> Q -> Q) (a : Tensor) (v : Q) (n : nat) :
  shape a = [n] -> wf a ->
  binop f a (mkTensor [] [v]) = Ok (mkTensor [n] (map (fun x => f x v) (data a))).
Proof.
  intros Hs Ha. unfold binop. cbn [shape]. rewrite Hs, bshape_vec_scalar.
  rewrite expand_one by now right.
  rewrite <- Hs, expand_id by exact Ha.
  assert (Hn : n = length (data a)) by (red in Ha; rewrite Ha, Hs, numel_vec; reflexivity).
  rewrite Hn at 1. now rewrite map2_repeat_r.
Qed.

Lemma binop_vec_matrix (f : Q -> Q -> Q) (d st : Tensor) (n m : nat) :
  shape d = [m] -> wf d -> shape st = [n; m] -> wf st ->
  binop f d st =
  Ok (mkTensor [n; m] (concat (map (map2 f (data d)) (chunks m n (data st))))).
Proof.
  intros Hd Wd Hs Ws. unfold binop. rewrite Hd, Hs, bshape_vec_matrix.
  assert (Ld : length (data d) = m) by (red in Wd; rewrite Wd, Hd, numel_vec; reflexivity).
  assert (Ls : length (data st) = (n * m)%nat)
    by (red in Ws; rewrite Ws, Hs; simpl; lia).
  rewrite <- Hs, expand_id by exact Ws.
  unfold expand, rank. rewrite Hs, Hd. cbn [length Nat.sub repeat app].
  rewrite expand_data_row by exact Ld.
  rewrite map2_rows by (rewrite Ld; exact Ls).
  now rewrite Ld.
Qed.

Lemma sum_last_matrix (n m : nat) (rows : list (list Q)) :
  length rows = n -> Forall (fun row => length row = m) rows ->
  sum_last (mkTensor [n; m] (concat rows)) = mkTensor [n] (map Qsum rows).
Proof.
  intros Hn Hrows. unfold sum_last. cbn [shape rev app data].
  rewrite numel_vec, <- Hn, chunks_concat by exact Hrows. reflexivity.
Qed.

Lemma Forall_map2_length (f : Q -> Q -> Q) (d : list Q) (rows : list (list Q)) :
  Forall (fun row => length row = length d) rows ->
  Forall (fun row => length row = length d) (map (map2 f d) rows).
Proof.
  induction 1 as [|row rows Hrow _ IH]; simpl; constructor; [|exact IH].
  rewrite map2_length; congruence.
Qed.

(** ** The prediction agrees with the formula of the specification *)

Lemma predict_rows (sc off sl : Q) (d : list Q) (rows : list (list Q)) (hs : list Q) :
  length rows = length hs ->
  Forall2 Qeq
    (map2 Qplus
       (map (fun x => (x + off)%Q)
          (map (Qmult sc)
             (map (fun x => (x / Qsum d)%Q) (map Qsum (map (map2 Qmult d) rows)))))
       (map (fun x => (x * sl)%Q) hs))
    (map2 (m_norm sc off sl d) rows hs).
Proof.
  revert hs. induction rows as [|row rows IH]; intros [|h hs] Hlen;
    simpl in *; try discriminate; constructor.
  - unfold m_norm, weighted_average. ring.
  - apply IH. lia.
Qed.

Lemma predict_spec (self : BaseHysteresis) (states h : Tensor) (n : nat) (sc off sl : Q) :
  density_ok self ->
  param (scale self) sc -> param (offset self) off -> param (slope self) sl ->
  shape states = [n; length (mesh_points self)] -> wf states ->
  shape h = [n] -> wf h ->
  exists m,
    _predict_normalized_magnetization self states h = Ok m /\
    shape m = [n] /\ wf m /\
    Forall2 Qeq (data m)
      (map2 (m_norm sc off sl (data (hysterion_density self)))
         (chunks (length (mesh_points self)) n (data states)) (data h)).
Proof.
  intros [Hd Wd] Hsc Hoff Hsl Hst Wst Hh Wh.
  set (M := length (mesh_points self)) in *.
  assert (Ld : length (data (hysterion_density self)) = M)
    by (red in Wd; rewrite Wd, Hd, numel_vec; reflexivity).
  assert (Ls : length (data states) = (n * M)%nat)
    by (red in Wst; rewrite Wst, Hst; simpl; lia).
  assert (Lh : length (data h) = n)
    by (red in Wh; rewrite Wh, Hh, numel_vec; reflexivity).
  unfold _predict_normalized_magnetization, mul, div, add.
  rewrite (binop_vec_matrix Qmult Hd Wd Hst Wst). cbn [rbind].
  rewrite sum_last_matrix.
  2: { rewrite length_map. apply chunks_length. }
  2: { rewrite <- Ld. apply Forall_map2_length. rewrite Ld.
       apply chunks_Forall_length. exact Ls. }
  unfold sum_all.
  erewrite binop_vec_scalar; [|reflexivity|].
  2: { red. cbn [data shape]. rewrite !length_map, chunks_length, numel_vec. reflexivity. }
  cbn [rbind]. unfold reshape. cbn [data]. rewrite Hh, numel_vec.
  rewrite !length_map, chunks_length, Nat.eqb_refl. cbn [rbind].
  rewrite Hsc, Hoff, Hsl.
  erewrite binop_one_vec; [|reflexivity|].
  2: { red. cbn [data shape]. rewrite !length_map, chunks_length, numel_vec. reflexivity. }
  cbn [rbind].
  erewrite binop_vec_one; [|reflexivity|].
  2: { red. cbn [data shape]. rewrite !length_map, chunks_length, numel_vec. reflexivity. }
  cbn [rbind].
  rewrite (binop_vec_one Qmult sl Hh Wh). cbn [rbind].
  rewrite binop_same.
  2: reflexivity.
  2: { red. cbn [data shape]. rewrite !length_map, chunks_length, numel_vec. reflexivity. }
  2: { red. cbn [data shape]. rewrite length_map, numel_vec. exact Lh. }
  eexists. split; [reflexivity|]. cbn [shape data]. split; [reflexivity|]. split.
  - red. cbn [shape data]. rewrite numel_vec, map2_length;
      rewrite !length_map, chunks_length; [reflexivity|lia].
  - apply predict_rows. rewrite chunks_length. lia.
Qed.

(** ** Properties of the methods *)

Definition states_fn : Type :=
  Tensor -> list (Q * Q) -> option Tensor -> option Tensor -> Q -> option Tensor.

Ltac monad_unfold :=
  unfold regression, delattr in *;
  unfold bind, get, modify, ret, raise, lift in *.

Section DomainCheck.

Definition outside (self : BaseHysteresis) (v : Q) : Prop :=
  (v < fst (valid_domain self) - machine_error)%Q \/
  (snd (valid_domain self) + machine_error < v)%Q.

Lemma check_domain_raises (self : BaseHysteresis) (values : Tensor) :
  _check_inside_valid_domain self values = Raise Exc.outside_domain <->
  exists v, In v (data values) /\ outside self v.
Proof.
  unfold _check_inside_valid_domain, any, outside.
  destruct (existsb _ (data values) || existsb _ (data values)) eqn:E.
  - split; [intros _|reflexivity].
    apply orb_true_iff in E. destruct E as [E|E];
      apply existsb_exists in E; destruct E as [v [Hin Hv]];
      apply Qltb_lt in Hv; exists v; auto.
  - split; [discriminate|]. intros [v [Hin Hv]]. exfalso.
    apply orb_false_iff in E. destruct E as [E1 E2].
    destruct Hv as [Hv|Hv]; apply Qltb_lt in Hv.
    + assert (X : existsb (fun v => Qltb v (fst (valid_domain self) - machine_error))
                    (data values) = true)
        by (apply existsb_exists; eauto).
      congruence.
    + assert (X : existsb (fun v => Qltb (snd (valid_domain self) + machine_error) v)
                    (data values) = true)
        by (apply existsb_exists; eauto).
      congruence.
Qed.

Lemma check_domain_cases (self : BaseHysteresis) (values : Tensor) :
  _check_inside_valid_domain self values = Raise Exc.outside_domain \/
  _check_inside_valid_domain self values = Ok tt.
Proof.
  unfold _check_inside_valid_domain. destruct (_ || _); auto.
Qed.

End DomainCheck.

(** *** Where the exceptions of the library calls come from *)

Lemma getattr_raise (name : string) (v : option Tensor) (e : PyExc) :
  getattr name v = Raise e -> e = AttributeError name.
Proof. destruct v; simpl; congruence. Qed.

Lemma select_last_raise (t : Tensor) (e : PyExc) :
  select_last t = Raise e -> exists msg, e = IndexError msg.
Proof.
  unfold select_last. destruct (shape t) as [|[|n] s]; intros H;
    inversion H; eauto.
Qed.

Lemma call_raise (component : string) (r : option Tensor) (e : PyExc) :
  call component r = Raise e -> e = CollaboratorError component.
Proof. destruct r; simpl; congruence. Qed.

Lemma binop_raise (f : Q -> Q -> Q) (a b : Tensor) (e : PyExc) :
  binop f a b = Raise e -> exists msg, e = RuntimeError msg.
Proof.
  unfold binop. destruct (broadcast_shapes _ _); intros H; inversion H; eauto.
Qed.

Lemma allclose_raise (a b : Tensor) (e : PyExc) :
  allclose a b = Raise e -> exists msg, e = RuntimeError msg.
Proof.
  unfold allclose. destruct (broadcast_shapes _ _); intros H; inversion H; eauto.
Qed.

Lemma reshape_raise (t : Tensor) (s : list nat) (e : PyExc) :
  reshape t s = Raise e -> exists msg, e = RuntimeError msg.
Proof.
  unfold reshape. destruct (_ =? _)%nat; intros H; inversion H; eauto.
Qed.

Lemma cat_raise (a b : Tensor) (e : PyExc) :
  cat a b = Raise e -> exists msg, e = RuntimeError msg.
Proof.
  unfold cat. intros H.
  repeat match type of H with
         | context [if ?c then _ else _] => destruct c
         | context [match ?l with [] => _ | _ :: _ => _ end] => destruct l
         end; inversion H; eauto.
Qed.

Lemma require_tensor_raise (x : option Tensor) (e : PyExc) :
  require_tensor x = Raise e -> e = Exc.none_tensor.
Proof. destruct x; simpl; congruence. Qed.

Lemma predict_raise (self : BaseHysteresis) (states h : Tensor) (e : PyExc) :
  _predict_normalized_magnetization self states h = Raise e ->
  exists msg, e = RuntimeError msg.
Proof.
  unfold _predict_normalized_magnetization, mul, div, add. intros H.
  repeat match type of H with
         | rbind ?r _ = _ =>
             let E := fresh "E" in
             destruct r eqn:E; cbn [rbind] in H;
             [|inversion H; subst;
               first [eapply binop_raise; eassumption
                     |eapply reshape_raise; eassumption]]
         end.
  eapply binop_raise; eassumption.
Qed.

(** Turn every equation [call = Raise e] into the class of [e]. *)
Ltac classify :=
  repeat match goal with
    | H : getattr _ _ = Raise _ |- _ => apply getattr_raise in H; subst
    | H : select_last _ = Raise _ |- _ =>
        apply select_last_raise in H; destruct H as [? ?]; subst
    | H : call _ _ = Raise _ |- _ => apply call_raise in H; subst
    | H : allclose _ _ = Raise _ |- _ =>
        apply allclose_raise in H; destruct H as [? ?]; subst
    | H : cat _ _ = Raise _ |- _ =>
        apply cat_raise in H; destruct H as [? ?]; subst
    | H : require_tensor _ = Raise _ |- _ => apply require_tensor_raise in H; subst
    | H : _predict_normalized_magnetization _ _ _ = Raise _ |- _ =>
        apply predict_raise in H; destruct H as [? ?]; subst
    end.

(** Run one step of a computation in the [result] monad by case analysis
    on the innermost call at its head. *)
Ltac head_step t :=
  lazymatch t with
  | rbind ?r _ => head_step r
  | (if ?c then _ else _) => head_step c
  | match ?o with Some _ => _ | None => _ end => head_step o
  | negb ?c => head_step c
  | Ok _ => fail
  | Raise _ => fail
  | Some _ => fail
  | @None _ => fail
  | true => fail
  | false => fail
  | _ => let E := fresh "E" in destruct t eqn:E
  end.

Ltac rstep :=
  match goal with
  | |- ?t <> _ => head_step t
  | |- ?t = _ => head_step t
  end; cbn [rbind fst snd negb] in *.

Section ForwardFacts.

Variables (get_states predict_batched_state : states_fn).

Let fwd := forward get_states predict_batched_state.

(** Once the domain check has passed, nothing else in [forward] raises the
    domain error. *)
Lemma forward_no_domain_error_after_check (self : BaseHysteresis)
    (x : option Tensor) (rr : bool) :
  match x with
  | Some xt => _check_inside_valid_domain self xt = Ok tt
  | None => True
  end ->
  fwd self x rr <> Raise Exc.outside_domain.
Proof.
  intros Hx. unfold fwd, forward.
  destruct x as [xt|]; [rewrite Hx|]; cbn [rbind];
    destruct (mode self) eqn:Hm; cbn [Mode_eqb negb rbind];
    repeat rstep; classify; discriminate.
Qed.

End ForwardFacts.

Section ApplyFieldFacts.

Variable get_states : states_fn.

Lemma atleast_1d_data (t : Tensor) : data (atleast_1d t) = data t.
Proof. unfold atleast_1d. destruct (shape t); reflexivity. Qed.

(** [apply_field] raises the domain error exactly when its check does. *)
Lemma apply_field_domain_error (self : BaseHysteresis) (h : Tensor) :
  snd (apply_field get_states h self) = Raise Exc.outside_domain <->
  _check_inside_valid_domain self (atleast_1d h) = Raise Exc.outside_domain.
Proof.
  unfold apply_field, _update_h_history_buffer. monad_unfold.
  destruct (check_domain_cases self (atleast_1d h)) as [Hc|Hc]; rewrite Hc;
    cbn [fst snd]; [tauto|].
  split; [|discriminate]. intros H. exfalso. revert H.
  destruct (isSome (_history_h self)).
  - destruct (getattr "_history_h" (_history_h self)) eqn:E1; cbn [snd].
    + destruct (cat _ _) eqn:E2; cbn [snd with_history_h _history_h getattr].
      * destruct (call _ _) eqn:E3; cbn [snd]; classify; discriminate.
      * classify; discriminate.
    + classify; discriminate.
  - cbn [snd with_history_h _history_h getattr].
    destruct (call _ _) eqn:E3; cbn [snd]; classify; discriminate.
Qed.

End ApplyFieldFacts.

(** ** Domain validation *)

(** C3.  [forward] and [apply_field] raise the domain error for an input
    tensor if and only if one of its elements lies below
    domain_min - 1e-4 or above domain_max + 1e-4.  In particular an input
    holding the value domain_max + 1 always raises it, and an input whose
    values all are domain_max - 1e-5 never does, the valid domain being an
    interval (domain_min <= domain_max). *)
Theorem domain_error_iff_outside
    (get_states predict_batched_state : states_fn)
    (self : BaseHysteresis) (x : Tensor) (return_real : bool) :
  (forward get_states predict_batched_state self (Some x) return_real
     = Raise Exc.outside_domain <->
   exists v, In v (data x) /\ outside self v) /\
  (snd (apply_field get_states x self) = Raise Exc.outside_domain <->
   exists v, In v (data x) /\ outside self v) /\
  ((exists v, In v (data x) /\ (v == snd (valid_domain self) + 1)%Q) ->
   forward get_states predict_batched_state self (Some x) return_real
     = Raise Exc.outside_domain /\
   snd (apply_field get_states x self) = Raise Exc.outside_domain) /\
  ((fst (valid_domain self) <= snd (valid_domain self))%Q ->
   (forall v, In v (data x) -> (v == snd (valid_domain self) - (1 # 100000))%Q) ->
   forward get_states predict_batched_state self (Some x) return_real
     <> Raise Exc.outside_domain /\
   snd (apply_field get_states x self) <> Raise Exc.outside_domain).
Proof.
  assert (Hf : forward get_states predict_batched_state self (Some x) return_real
                 = Raise Exc.outside_domain <->
               exists v, In v (data x) /\ outside self v).
  { rewrite <- check_domain_raises. split.
    - intros H. destruct (check_domain_cases self x) as [Hc|Hc]; [exact Hc|].
      exfalso.
      exact (@forward_no_domain_error_after_check get_states predict_batched_state
               self (Some x) return_real Hc H).
    - intros Hc. unfold forward. rewrite Hc. reflexivity. }
  assert (Ha : snd (apply_field get_states x self) = Raise Exc.outside_domain <->
               exists v, In v (data x) /\ outside self v).
  { rewrite apply_field_domain_error, check_domain_raises, atleast_1d_data.
    reflexivity. }
  split; [exact Hf|]. split; [exact Ha|]. split.
  - intros [v [Hin Hv]].
    assert (Hout : exists v, In v (data x) /\ outside self v).
    { exists v. split; [exact Hin|]. right. rewrite Hv.
      unfold machine_error. apply Qplus_lt_r. reflexivity. }
    split; [apply Hf|apply Ha]; exact Hout.
  - intros Hdom Hall.
    assert (Hin : ~ exists v, In v (data x) /\ outside self v).
    { intros [v [Hin [Hv|Hv]]];
        rewrite (Hall v Hin) in Hv; unfold machine_error in Hv.
      - apply (Qlt_not_le _ _ Hv).
        apply Qle_trans with (fst (valid_domain self) - (1 # 100000))%Q.
        + apply Qplus_le_r. discriminate.
        + apply Qplus_le_l. exact Hdom.
      - apply (Qlt_not_le _ _ Hv). apply Qplus_le_r. discriminate. }
    split; intros H; apply Hin; [apply Hf|apply Ha]; exact H.
Qed.

(** ** Evaluation at the current state *)

Lemma select_last_vec (h : Tensor) (k : nat) :
  shape h = [S k] -> wf h ->
  exists v, select_last h = Ok (mkTensor [] [v]) /\ data h = firstn k (data h) ++ [v].
Proof.
  intros Hs Hw. unfold select_last. rewrite Hs. cbn [numel fold_right].
  rewrite Nat.mul_1_r.
  assert (L : length (skipn k (data h)) = 1%nat).
  { rewrite length_skipn. red in Hw. rewrite Hw, Hs, numel_vec. lia. }
  destruct (skipn k (data h)) as [|v [|w r]] eqn:E; simpl in L; try lia.
  exists v. split; [reflexivity|].
  rewrite <- E. symmetry. apply firstn_skipn.
Qed.

Lemma select_last_matrix (st : Tensor) (k m : nat) :
  shape st = [S k; m] -> wf st ->
  exists row, select_last st = Ok (mkTensor [m] row) /\ length row = m /\
              row = skipn (k * m) (data st).
Proof.
  intros Hs Hw. unfold select_last. rewrite Hs. rewrite numel_vec.
  eexists. split; [reflexivity|]. split; [|reflexivity].
  rewrite length_skipn. red in Hw. rewrite Hw, Hs. simpl. lia.
Qed.

Section CurrentMode.

Variables (get_states predict_batched_state : states_fn).

Lemma forward_current_ok (self : BaseHysteresis) (x : option Tensor) (k : nat)
    (sc off sl : Q) :
  mode self = CURRENT ->
  match x with
  | Some xt => _check_inside_valid_domain self xt = Ok tt
  | None => True
  end ->
  cached (S k) self -> density_ok self ->
  param (scale self) sc -> param (offset self) off -> param (slope self) sl ->
  exists m, forward get_states predict_batched_state self x false = Ok (Some m).
Proof.
  intros Hm Hx (h & st & Hh & Hst & Sh & Wh & Sst & Wst) Hd Hsc Hoff Hsl.
  destruct (select_last_vec Sh Wh) as (v & Ev & _).
  destruct (select_last_matrix Sst Wst) as (row & Er & Lr & _).
  assert (Hp : exists m, _predict_normalized_magnetization self
                 (unsqueeze0 (mkTensor [length (mesh_points self)] row))
                 (unsqueeze0 (mkTensor [] [v])) = Ok m).
  { destruct (@predict_spec self
                (unsqueeze0 (mkTensor [length (mesh_points self)] row))
                (unsqueeze0 (mkTensor [] [v])) 1 sc off sl)
      as (m & Em & _); try assumption; try reflexivity.
    - red. cbn [unsqueeze0 shape data numel fold_right]. lia.
    - exists m. exact Em. }
  destruct Hp as (m & Em). exists m.
  unfold forward, hasattr_history_h.
  replace (match x with
           | Some xt => _check_inside_valid_domain self xt
           | None => if negb (Mode_eqb (mode self) CURRENT)
                     then Raise Exc.must_specify_field else Ok tt
           end) with (@Ok unit tt)
    by (destruct x; [symmetry; exact Hx|rewrite Hm; reflexivity]).
  rewrite Hm, Hh, Hst. cbn [rbind isSome getattr negb].
  rewrite Ev, Er. cbn [rbind fst snd]. rewrite Em. reflexivity.
Qed.

End CurrentMode.

(** ** Calls without an input tensor *)

(** C10.  In every mode other than CURRENT, [forward] without an input
    tensor raises the [HysteresisError] "must specify field when not using
    CURRENT mode", whatever the stored history, the cached states and the
    state functions are, so before any of them is used.  CURRENT mode does
    not raise it, and returns a prediction when a non-empty history is
    cached. *)
Theorem forward_without_input
    (get_states predict_batched_state : states_fn)
    (self : BaseHysteresis) (return_real : bool) :
  (mode self <> CURRENT ->
   forward get_states predict_batched_state self None return_real
     = Raise Exc.must_specify_field /\
   is_HysteresisError Exc.must_specify_field = true) /\
  (mode self = CURRENT ->
   forward get_states predict_batched_state self None return_real
     <> Raise Exc.must_specify_field) /\
  (mode self = CURRENT ->
   forall k sc off sl,
     cached (S k) self -> density_ok self ->
     param (scale self) sc -> param (offset self) off -> param (slope self) sl ->
     exists m, forward get_states predict_batched_state self None false = Ok (Some m)).
Proof.
  split; [|split].
  - intros Hm. split; [|reflexivity].
    unfold forward. destruct (mode self); try congruence; reflexivity.
  - intros Hm. unfold forward. rewrite Hm. cbn [Mode_eqb negb rbind].
    repeat rstep; classify; discriminate.
  - intros Hm k sc off sl Hc Hd Hsc Hoff Hsl.
    exact (@forward_current_ok get_states predict_batched_state self None k
             sc off sl Hm I Hc Hd Hsc Hoff Hsl).
Qed.

(** ** [set_history] *)

(** Case analysis on every call a monadic computation in hypothesis [H]
    goes through. *)
Ltac mcases H :=
  repeat match type of H with
    | context [match ?x with _ => _ end] =>
        lazymatch x with
        | context [match _ with _ => _ end] => fail
        | _ => let E := fresh "E" in destruct x eqn:E
        end
    end.

Section SetHistory.

Variables (get_states predict_batched_state : states_fn).
Variable HysteresisTransform_new :
  option Tensor -> option Tensor -> option Tensor -> nat -> nat -> HysteresisTransform.

Let set_history' := set_history get_states predict_batched_state HysteresisTransform_new.

(** The model on which the checks of [set_history] run: the transform has
    been rebuilt when the model is trainable and its scaling is not fixed. *)
Definition after_transform_rebuild (self : BaseHysteresis)
    (history_h : Tensor) (history_m : option Tensor) : BaseHysteresis :=
  if _trainable self && negb (fixed_scaling self)
  then with_transformer self
         (HysteresisTransform_new (Some history_h) history_m (_fixed_domain self)
            (polynomial_degree self) (polynomial_fit_iterations self))
  else self.

Lemma after_transform_rebuild_buffers (self : BaseHysteresis) h m :
  _history_h (after_transform_rebuild self h m) = _history_h self /\
  _history_m (after_transform_rebuild self h m) = _history_m self /\
  _states (after_transform_rebuild self h m) = _states self /\
  mode (after_transform_rebuild self h m) = mode self /\
  mesh_points (after_transform_rebuild self h m) = mesh_points self.
Proof.
  unfold after_transform_rebuild. destruct (_ && _); repeat split.
Qed.

Lemma set_history_h_not_1d (self : BaseHysteresis) (h : Tensor) (m : option Tensor) :
  rank h <> 1%nat ->
  set_history' h m self = (after_transform_rebuild self h m, Raise Exc.history_h_not_1d).
Proof.
  intros Hr. apply Nat.eqb_neq in Hr.
  unfold set_history', set_history, after_transform_rebuild. monad_unfold.
  destruct (_trainable self && negb (fixed_scaling self)); rewrite Hr; reflexivity.
Qed.

Lemma set_history_equal (self : BaseHysteresis) (h m : Tensor) :
  rank h = 1%nat -> equal h m = true ->
  set_history' h (Some m) self
  = (after_transform_rebuild self h (Some m), Raise Exc.train_h_m_equal).
Proof.
  intros Hr He. apply Nat.eqb_eq in Hr.
  unfold set_history', set_history, after_transform_rebuild. monad_unfold.
  destruct (_trainable self && negb (fixed_scaling self)); rewrite Hr, He; reflexivity.
Qed.

Lemma set_history_mode (self self' : BaseHysteresis) (h : Tensor) (m : option Tensor) :
  set_history' h m self = (self', Ok tt) -> mode self' = mode self.
Proof.
  unfold set_history', set_history, _update_h_history_buffer. monad_unfold.
  intros H. mcases H; inversion H; subst; reflexivity.
Qed.

(** When the transform yields no normalized magnetization, the stored one
    is what [forward] returns in REGRESSION mode on the raw fields. *)
Lemma set_history_derives_m (self self' : BaseHysteresis) (h : Tensor)
    (m : option Tensor) :
  set_history' h m self = (self', Ok tt) ->
  snd (transform (transformer (after_transform_rebuild self h m)) h m) = None ->
  exists mid derived,
    mode mid = REGRESSION /\
    forward get_states predict_batched_state mid (Some h) false = Ok (Some derived) /\
    _history_m self' = Some derived.
Proof.
  unfold set_history', set_history, _update_h_history_buffer, after_transform_rebuild.
  monad_unfold. intros H Hnone.
  destruct (_trainable self && negb (fixed_scaling self));
    mcases H; inversion H; subst; cbn [transformer with_transformer] in *;
    try congruence;
    match goal with
    | E : forward _ _ ?mid _ _ = Ok (Some ?d) |- _ =>
        exists mid, d; repeat split; exact E
    end.
Qed.

End SetHistory.

(** C7.  When [h] and [m] are equal tensors, [set_history(h, m)] raises a
    configuration error (the [RuntimeError] "train h and train m cannot be
    equal" for a 1-D [h], the [ValueError] on a non-1-D [h] otherwise) and
    leaves the stored field history, the stored magnetization history and
    the cached state matrix as they were. *)
Theorem set_history_rejects_equal
    (get_states predict_batched_state : states_fn)
    (HysteresisTransform_new :
       option Tensor -> option Tensor -> option Tensor -> nat -> nat ->
       HysteresisTransform)
    (self : BaseHysteresis) (h m : Tensor) :
  equal h m = true ->
  exists e self',
    set_history get_states predict_batched_state HysteresisTransform_new
      h (Some m) self = (self', Raise e) /\
    configuration_error e /\
    (rank h = 1%nat -> e = Exc.train_h_m_equal) /\
    _history_h self' = _history_h self /\
    _history_m self' = _history_m self /\
    _states self' = _states self.
Proof.
  intros He.
  destruct (after_transform_rebuild_buffers HysteresisTransform_new self h (Some m))
    as (B1 & B2 & B3 & _).
  destruct (Nat.eq_dec (rank h) 1) as [Hr|Hr].
  - exists Exc.train_h_m_equal, (after_transform_rebuild HysteresisTransform_new self h (Some m)).
    split; [apply set_history_equal; assumption|].
    split; [right; right; reflexivity|]. auto.
  - exists Exc.history_h_not_1d, (after_transform_rebuild HysteresisTransform_new self h (Some m)).
    split; [apply set_history_h_not_1d; assumption|].
    split; [left; reflexivity|].
    split; [intros; contradiction|]. auto.
Qed.

(** C9.  A successful [set_history(h)] without [m] leaves the mode of the
    model as it was before the call: the switch to REGRESSION that derives
    [m] is undone before the call returns. *)
Theorem set_history_restores_mode
    (get_states predict_batched_state : states_fn)
    (HysteresisTransform_new :
       option Tensor -> option Tensor -> option Tensor -> nat -> nat ->
       HysteresisTransform)
    (self self' : BaseHysteresis) (h : Tensor) :
  set_history get_states predict_batched_state HysteresisTransform_new
    h None self = (self', Ok tt) ->
  mode self' = mode self /\
  (snd (transform
          (transformer (after_transform_rebuild HysteresisTransform_new self h None))
          h None) = None ->
   exists mid derived,
     mode mid = REGRESSION /\
     forward get_states predict_batched_state mid (Some h) false = Ok (Some derived) /\
     _history_m self' = Some derived).
Proof.
  intros H. split.
  - eapply set_history_mode; exact H.
  - eapply set_history_derives_m; exact H.
Qed.

(** ** [reset_history] and the modes that need a history *)

Section NoHistory.

Variables (get_states predict_batched_state : states_fn).

Let fwd := forward get_states predict_batched_state.

(** CURRENT mode without a stored field history: the call raises, and the
    exception is the mode-consistency error unless the domain check has
    rejected the input first. *)
Lemma forward_current_no_history (self : BaseHysteresis) (x : option Tensor)
    (rr : bool) :
  mode self = CURRENT -> _history_h self = None ->
  (fwd self x rr = Raise Exc.no_history_data /\
   match x with
   | Some xt => _check_inside_valid_domain self xt = Ok tt
   | None => True
   end) \/
  (fwd self x rr = Raise Exc.outside_domain /\
   exists xt, x = Some xt /\
              _check_inside_valid_domain self xt = Raise Exc.outside_domain).
Proof.
  intros Hm Hh. unfold fwd, forward, hasattr_history_h.
  rewrite Hm, Hh. cbn [Mode_eqb negb isSome rbind].
  destruct x as [xt|].
  - destruct (check_domain_cases self xt) as [Hc|Hc]; rewrite Hc; cbn [rbind].
    + right. split; [reflexivity|]. exists xt. auto.
    + left. auto.
  - left. auto.
Qed.

(** FUTURE mode without a stored field history runs the state function
    from no current state, as REGRESSION mode does. *)
Lemma forward_future_no_history (self : BaseHysteresis) (xt : Tensor) (rr : bool) :
  mode self = FUTURE -> _history_h self = None -> rank xt = 1%nat ->
  fwd self (Some xt) rr = fwd (with_mode self REGRESSION) (Some xt) rr.
Proof.
  intros Hm Hh Hr. unfold fwd, forward, hasattr_history_h.
  rewrite Hm. cbn [mode with_mode _history_h]. rewrite Hh.
  cbn [isSome require_tensor rbind fst snd]. rewrite Hr. reflexivity.
Qed.

Lemma forward_future_not_1d (self : BaseHysteresis) (xt : Tensor) (rr : bool) :
  mode self = FUTURE -> rank xt <> 1%nat ->
  exists e, fwd self (Some xt) rr = Raise e /\
    (_check_inside_valid_domain self xt = Ok tt ->
     (_history_h self = None \/ exists k, cached (S k) self) ->
     e = Exc.future_not_1d).
Proof.
  intros Hm Hr. apply Nat.eqb_neq in Hr.
  unfold fwd, forward, hasattr_history_h. rewrite Hm.
  destruct (check_domain_cases self xt) as [Hc|Hc]; rewrite Hc; cbn [rbind].
  - eexists. split; [reflexivity|]. discriminate.
  - destruct (_history_h self) as [h|] eqn:Hh; cbn [isSome getattr rbind].
    + destruct (select_last h) as [cf|e1] eqn:E1; cbn [rbind].
      * destruct (_states self) as [st|] eqn:Hst; cbn [getattr rbind].
        -- destruct (select_last st) as [cs|e2] eqn:E2;
             cbn [rbind require_tensor fst snd].
           ++ rewrite Hr. cbn [negb rbind]. eexists. split; [reflexivity|]. auto.
           ++ eexists. split; [reflexivity|]. intros _ [C|[k C]]; [discriminate|].
              destruct C as (h' & st' & Eh & Es & Sh & Wh & Sst & Wst).
              rewrite Hst in Es. inversion Es; subst st'.
              destruct (select_last_matrix Sst Wst) as (row & Er & _). congruence.
        -- eexists. split; [reflexivity|]. intros _ [C|[k C]]; [discriminate|].
           destruct C as (h' & st' & Eh & Es & _). congruence.
      * eexists. split; [reflexivity|]. intros _ [C|[k C]]; [discriminate|].
        destruct C as (h' & st' & Eh & Es & Sh & Wh & _).
        rewrite Hh in Eh. inversion Eh; subst h'.
        destruct (select_last_vec Sh Wh) as (v & Ev & _). congruence.
    + cbn [require_tensor rbind fst snd]. rewrite Hr. cbn [negb rbind].
      eexists. split; [reflexivity|]. auto.
Qed.

End NoHistory.

Lemma reset_history_ok (self : BaseHysteresis) (hh hm : Tensor) :
  _history_h self = Some hh -> _history_m self = Some hm ->
  reset_history self = (with_history_m (with_history_h self None) None, Ok tt).
Proof.
  intros Hh Hm. unfold reset_history. monad_unfold. rewrite Hh.
  cbn [with_history_h _history_m]. rewrite Hm. reflexivity.
Qed.

(** With a field history stored, no mode raises the error of CURRENT mode
    for a missing history. *)
Lemma forward_with_history_not_no_history_data
    (get_states predict_batched_state : states_fn)
    (later : BaseHysteresis) (x : option Tensor) (rr : bool) :
  _history_h later <> None ->
  forward get_states predict_batched_state later x rr <> Raise Exc.no_history_data.
Proof.
  intros Hh. destruct (_history_h later) as [h|] eqn:E; [|contradiction].
  unfold forward, hasattr_history_h. rewrite E. cbn [isSome negb getattr rbind].
  destruct x as [xt|]; destruct (mode later) eqn:Hm; cbn [Mode_eqb negb rbind];
    repeat rstep; classify;
    repeat match goal with
      | H : _check_inside_valid_domain ?s ?v = Raise _ |- _ =>
          let C := fresh "C" in
          destruct (check_domain_cases s v) as [C|C]; rewrite C in H;
          inversion H; subst; clear H C
      end;
    discriminate.
Qed.

(** C5 (amended).  On a model whose field and magnetization histories are
    set, [reset_history] succeeds and discards both; the cached state
    matrix stays in place.  From then on, on every model that stores no
    field history (the model right after the reset among them), every
    [forward] in CURRENT mode raises a [HysteresisError]: the
    mode-consistency error "no history data to determine current state"
    when no input is given or the input passes the domain check, the domain
    error otherwise.  Once a field history is stored again, that
    mode-consistency error is no longer raised. *)
Theorem reset_history_discards_history
    (get_states predict_batched_state : states_fn)
    (self : BaseHysteresis) (hh hm : Tensor) :
  _history_h self = Some hh -> _history_m self = Some hm ->
  exists self',
    reset_history self = (self', Ok tt) /\
    _history_h self' = None /\ _history_m self' = None /\
    _states self' = _states self /\
    (forall (x : option Tensor) (return_real : bool),
     exists e,
       forward get_states predict_batched_state (with_mode self' CURRENT) x return_real
         = Raise e /\
       is_HysteresisError e = true /\
       (match x with
        | Some xt => _check_inside_valid_domain self' xt = Ok tt
        | None => True
        end ->
        e = Exc.no_history_data /\ mode_consistency_error e) /\
       (e <> Exc.no_history_data -> domain_error e)) /\
    (forall (later : BaseHysteresis) (x : option Tensor) (return_real : bool),
     mode later = CURRENT -> _history_h later = None ->
     exists e,
       forward get_states predict_batched_state later x return_real = Raise e /\
       is_HysteresisError e = true /\
       (match x with
        | Some xt => _check_inside_valid_domain later xt = Ok tt
        | None => True
        end ->
        e = Exc.no_history_data /\ mode_consistency_error e) /\
       (e <> Exc.no_history_data -> domain_error e)) /\
    (forall (later : BaseHysteresis) (x : option Tensor) (return_real : bool),
     _history_h later <> None ->
     forward get_states predict_batched_state later x return_real
     <> Raise Exc.no_history_data).
Proof.
  intros Hh Hm.
  assert (Hlater :
    forall (later : BaseHysteresis) (x : option Tensor) (rr : bool),
      mode later = CURRENT -> _history_h later = None ->
      exists e,
        forward get_states predict_batched_state later x rr = Raise e /\
        is_HysteresisError e = true /\
        (match x with
         | Some xt => _check_inside_valid_domain later xt = Ok tt
         | None => True
         end ->
         e = Exc.no_history_data /\ mode_consistency_error e) /\
        (e <> Exc.no_history_data -> domain_error e)).
  { intros later x rr Hmode Hnone.
    destruct (@forward_current_no_history get_states predict_batched_state
                later x rr Hmode Hnone) as [[E Hx]|[E (xt & -> & Hc)]].
    - exists Exc.no_history_data. split; [exact E|]. split; [reflexivity|].
      split; [|congruence].
      intros _. split; [reflexivity|]. unfold mode_consistency_error. tauto.
    - exists Exc.outside_domain. split; [exact E|]. split; [reflexivity|].
      split; [|reflexivity].
      intros Hok. congruence. }
  eexists. split; [exact (reset_history_ok self Hh Hm)|].
  split; [reflexivity|]. split; [reflexivity|]. split; [reflexivity|].
  split; [|split].
  - intros x rr.
    destruct (Hlater (with_mode (with_history_m (with_history_h self None) None) CURRENT)
                x rr eq_refl eq_refl) as (e & E & He & Hpass & Hdom).
    exists e. split; [exact E|]. split; [exact He|]. split; [|exact Hdom].
    intros Hok. apply Hpass. destruct x as [xt|]; [|exact I].
    unfold _check_inside_valid_domain, valid_domain in *.
    cbn [transformer with_mode with_history_m with_history_h] in *. exact Hok.
  - exact Hlater.
  - intros later x rr Hsome.
    apply forward_with_history_not_no_history_data. exact Hsome.
Qed.

(** C6 (amended).  In FUTURE mode [forward] rejects a missing input and an
    input that is not 1-dimensional (with the [ValueError] "input must be
    1D for FUTURE mode" once the domain check has passed).  A stored history
    is not required: without one, a 1-D input is evaluated as in REGRESSION
    mode, from no current state. *)
Theorem forward_future_requirements
    (get_states predict_batched_state : states_fn)
    (self : BaseHysteresis) (return_real : bool) :
  mode self = FUTURE ->
  forward get_states predict_batched_state self None return_real
    = Raise Exc.must_specify_field /\
  (forall xt, rank xt <> 1%nat ->
     exists e,
       forward get_states predict_batched_state self (Some xt) return_real = Raise e /\
       (_check_inside_valid_domain self xt = Ok tt ->
        (_history_h self = None \/ exists k, cached (S k) self) ->
        e = Exc.future_not_1d)) /\
  (forall xt, rank xt = 1%nat -> _history_h self = None ->
     forward get_states predict_batched_state self (Some xt) return_real
     = forward get_states predict_batched_state (with_mode self REGRESSION)
         (Some xt) return_real).
Proof.
  intros Hm. split; [|split].
  - unfold forward. rewrite Hm. reflexivity.
  - intros xt Hr. now apply forward_future_not_1d.
  - intros xt Hr Hh. now apply forward_future_no_history.
Qed.

(** ** FITTING mode *)

Lemma allclose_same_shape (a b : Tensor) :
  shape a = shape b -> wf a -> wf b ->
  allclose a b = Ok (forallb2 isclose (data a) (data b)).
Proof.
  intros Hs Wa Wb. unfold allclose. rewrite <- Hs, bshape_same.
  rewrite expand_id by exact Wa.
  rewrite Hs, expand_id by exact Wb. reflexivity.
Qed.

Section Fitting.

Variables (get_states predict_batched_state : states_fn).

Let fwd := forward get_states predict_batched_state.

Lemma forward_fitting (self : BaseHysteresis) (x hh hm st : Tensor) (rr : bool)
    (k : nat) :
  mode self = FITTING ->
  _history_h self = Some hh -> _states self = Some st ->
  shape hh = [S k] -> wf hh ->
  shape st = [S k; length (mesh_points self)] -> wf st ->
  _history_m self = Some hm ->
  _check_inside_valid_domain self x = Ok tt ->
  fwd self (Some x) rr =
  if negb (shape_eqb (shape hh) (shape hm)) then Raise Exc.history_shape_mismatch
  else
    let* close := allclose x (fst (untransform (transformer self) hh None)) in
    if negb close then Raise Exc.must_regress_on_history
    else
      let* m := _predict_normalized_magnetization self st hh in
      if rr then Ok (snd (untransform (transformer self) hh (Some m)))
      else Ok (Some m).
Proof.
  intros Hm Hh Hst Sh Wh Sst Wst Hhm Hc.
  destruct (select_last_vec Sh Wh) as (v & Ev & _).
  destruct (select_last_matrix Sst Wst) as (row & Er & _).
  unfold fwd, forward, hasattr_history_h.
  rewrite Hc, Hm, Hh, Hst, Hhm. cbn [rbind isSome getattr negb].
  rewrite Ev, Er. cbn [rbind fst snd require_tensor].
  destruct (negb (shape_eqb (shape hh) (shape hm))); [reflexivity|].
  destruct (allclose _ _) as [[|]|e]; reflexivity.
Qed.

End Fitting.

(** C1 (amended).  On a model in FITTING mode whose cached field history is
    a non-empty vector with its state matrix, whose magnetization history
    has the same shape, and for an input [x] that passes the domain check:
    when [x] is not close to the untransformed stored history
    ([torch.allclose] answers [False]) [forward] raises the mode-consistency
    error "must do regression on history fields if in FITTING mode"; when it
    is close, [forward] returns the prediction computed from the cached
    state matrix and the cached normalized history.  For [x] of the shape of
    the history, closeness is elementwise closeness.  When the two stored
    histories differ in shape every such call raises "history datasets must
    match shape for fitting". *)
Theorem forward_fitting_checks_history
    (get_states predict_batched_state : states_fn)
    (self : BaseHysteresis) (x hh hm st : Tensor) (k : nat) :
  mode self = FITTING ->
  _history_h self = Some hh -> _states self = Some st ->
  shape hh = [S k] -> wf hh ->
  shape st = [S k; length (mesh_points self)] -> wf st ->
  _history_m self = Some hm ->
  _check_inside_valid_domain self x = Ok tt ->
  (shape hm = shape hh ->
   (allclose x (fst (untransform (transformer self) hh None)) = Ok false ->
    forall rr, forward get_states predict_batched_state self (Some x) rr
               = Raise Exc.must_regress_on_history /\
               mode_consistency_error Exc.must_regress_on_history) /\
   (allclose x (fst (untransform (transformer self) hh None)) = Ok true ->
    forward get_states predict_batched_state self (Some x) false
    = (let* m := _predict_normalized_magnetization self st hh in Ok (Some m)) /\
    forward get_states predict_batched_state self (Some x) true
    = (let* m := _predict_normalized_magnetization self st hh in
       Ok (snd (untransform (transformer self) hh (Some m)))) /\
    forall sc off sl,
      density_ok self ->
      param (scale self) sc -> param (offset self) off -> param (slope self) sl ->
      exists m, forward get_states predict_batched_state self (Some x) false
                = Ok (Some m) /\ shape m = [S k]) /\
   (shape x = shape (fst (untransform (transformer self) hh None)) -> wf x -> wf (fst (untransform (transformer self) hh None)) ->
    allclose x (fst (untransform (transformer self) hh None)) = Ok (forallb2 isclose (data x) (data (fst (untransform (transformer self) hh None)))))) /\
  (shape hm <> shape hh ->
   forall rr, forward get_states predict_batched_state self (Some x) rr
              = Raise Exc.history_shape_mismatch).
Proof.
  intros Hm Hh Hst Sh Wh Sst Wst Hhm Hc.
  pose proof (fun rr =>
    @forward_fitting get_states predict_batched_state self x hh hm st rr k
      Hm Hh Hst Sh Wh Sst Wst Hhm Hc) as F.
  split.
  - intros Es.
    assert (Eb : negb (shape_eqb (shape hh) (shape hm)) = false).
    { rewrite Es, shape_eqb_refl. reflexivity. }
    split; [|split].
    + intros Hcl rr. split.
      * rewrite F, Eb. rewrite Hcl. reflexivity.
      * unfold mode_consistency_error. tauto.
    + intros Hcl.
      assert (F0 := F false). assert (F1 := F true).
      rewrite Eb in F0, F1. rewrite Hcl in F0, F1.
      cbn [rbind negb] in F0, F1.
      split; [exact F0|]. split; [exact F1|].
      intros sc off sl Hd Hsc Hoff Hsl.
      destruct (@predict_spec self st hh (S k) sc off sl Hd Hsc Hoff Hsl Sst Wst Sh Wh)
        as (m & Em & Sm & _).
      exists m. rewrite F0, Em. auto.
    + intros Sx Wx Ws. now apply allclose_same_shape.
  - intros Hne rr.
    assert (Eb : negb (shape_eqb (shape hh) (shape hm)) = true).
    { apply negb_true_iff. destruct (shape_eqb (shape hh) (shape hm)) eqn:E;
        [|reflexivity].
      apply shape_eqb_eq in E. congruence. }
    rewrite F, Eb. reflexivity.
Qed.

(** ** The cached state matrix *)

Section Cache.

Variables (get_states predict_batched_state : states_fn).
Variable HysteresisTransform_new :
  option Tensor -> option Tensor -> option Tensor -> nat -> nat -> HysteresisTransform.

(** What a model looks like once [h] has been stored and the states
    recomputed from it. *)
Definition recomputed (self' : BaseHysteresis) (h : Tensor) : Prop :=
  exists st,
    _history_h self' = Some h /\ _states self' = Some st /\
    get_states h (mesh_points self') None None (temp self') = Some st.

Lemma update_buffer_ok (self self' : BaseHysteresis) (h : Tensor) :
  _update_h_history_buffer get_states h self = (self', Ok tt) ->
  exists st,
    get_states h (mesh_points self) None None (temp self) = Some st /\
    self' = with_states (with_history_h self (Some h)) (Some st).
Proof.
  unfold _update_h_history_buffer. monad_unfold.
  cbn [with_history_h _history_h getattr mesh_points temp].
  destruct (get_states h (mesh_points self) None None (temp self)) as [st|];
    cbn [call]; intros H; inversion H. eauto.
Qed.

Lemma set_history_recomputes (self self' : BaseHysteresis) (h : Tensor)
    (m : option Tensor) :
  set_history get_states predict_batched_state HysteresisTransform_new h m self
    = (self', Ok tt) ->
  recomputed self'
    (fst (transform (transformer (after_transform_rebuild HysteresisTransform_new
                                    self h m)) h m)) /\
  mesh_points self' = mesh_points self.
Proof.
  unfold set_history, _update_h_history_buffer, after_transform_rebuild, recomputed.
  monad_unfold. intros H.
  destruct (_trainable self && negb (fixed_scaling self));
    mcases H; inversion H; subst;
    cbn [with_history_h with_history_m with_states with_mode with_transformer
         _history_h _states mesh_points temp transformer getattr] in *;
    (split; [|reflexivity]);
    repeat match goal with
      | E : Ok _ = Ok _ |- _ => inversion E; subst; clear E
      | E : call _ ?r = Ok _ |- _ => destruct r eqn:?; cbn [call] in E; [|discriminate]
      end;
    eexists; repeat split; eassumption.
Qed.

Lemma apply_field_recomputes (self self' : BaseHysteresis) (x : Tensor) :
  apply_field get_states x self = (self', Ok tt) ->
  exists h,
    recomputed self' h /\
    mesh_points self' = mesh_points self /\
    match _history_h self with
    | Some old =>
        cat old (fst (transform (transformer self) (atleast_1d x) None)) = Ok h
    | None => h = fst (transform (transformer self) (atleast_1d x) None)
    end.
Proof.
  unfold apply_field, recomputed. monad_unfold. intros H.
  destruct (_check_inside_valid_domain self (atleast_1d x)); [|discriminate].
  destruct (_history_h self) as [old|] eqn:Hold; cbn [isSome getattr] in H.
  - destruct (cat old _) as [h|] eqn:Ecat; [|discriminate].
    apply update_buffer_ok in H. destruct H as (st & Est & ->).
    exists h. split; [|split; [reflexivity|exact eq_refl]].
    exists st. repeat split. exact Est.
  - apply update_buffer_ok in H. destruct H as (st & Est & ->).
    eexists. split; [|split; reflexivity].
    exists st. repeat split. exact Est.
Qed.

Lemma apply_field_first (self : BaseHysteresis) (x : Tensor) :
  states_total get_states ->
  _history_h self = None ->
  _check_inside_valid_domain self (atleast_1d x) = Ok tt ->
  shape (fst (transform (transformer self) (atleast_1d x) None)) = [1%nat] ->
  wf (fst (transform (transformer self) (atleast_1d x) None)) ->
  exists self', apply_field get_states x self = (self', Ok tt).
Proof.
  intros Htot Hh Hc Hs Hw. unfold apply_field, _update_h_history_buffer. monad_unfold.
  rewrite Hc, Hh. cbn [isSome with_history_h _history_h getattr mesh_points temp].
  destruct (get_states _ (mesh_points self) None None (temp self)) as [st|] eqn:E.
  - cbn [call]. eauto.
  - exfalso. exact (Htot _ _ _ _ _ _ Hs Hw E).
Qed.

End Cache.

(** C4.  After a successful [set_history] or [apply_field] the cached state
    matrix is the state function run, from no current state, on the whole
    stored normalized field history (for [apply_field]: the previous
    history followed by the new fields), and it has shape (n, |mesh|) for a
    history of length n.  In particular, [apply_field] with a single value
    inside the domain on a model without history succeeds and leaves a
    1-element history and a state matrix of shape (1, |mesh|).  The state
    function is assumed to meet its contract, and for the last part to
    accept every 1-D history and the transform to keep shapes. *)
Theorem history_change_recomputes_states
    (get_states predict_batched_state : states_fn)
    (HysteresisTransform_new :
       option Tensor -> option Tensor -> option Tensor -> nat -> nat ->
       HysteresisTransform)
    (self : BaseHysteresis) :
  states_contract get_states ->
  (forall h m self',
     set_history get_states predict_batched_state HysteresisTransform_new h m self
       = (self', Ok tt) ->
     exists n,
       recomputed get_states self'
         (fst (transform (transformer self') h m)) /\
       cached n self') /\
  (forall x self',
     apply_field get_states x self = (self', Ok tt) ->
     exists n hh,
       recomputed get_states self' hh /\ cached n self' /\
       match _history_h self with
       | Some old =>
           cat old (fst (transform (transformer self) (atleast_1d x) None)) = Ok hh
       | None => hh = fst (transform (transformer self) (atleast_1d x) None)
       end) /\
  (forall x,
     states_total get_states ->
     _history_h self = None ->
     shape x = [] \/ shape x = [1%nat] ->
     _check_inside_valid_domain self (atleast_1d x) = Ok tt ->
     shape (fst (transform (transformer self) (atleast_1d x) None))
       = shape (atleast_1d x) ->
     wf (fst (transform (transformer self) (atleast_1d x) None)) ->
     exists self' hh st,
       apply_field get_states x self = (self', Ok tt) /\
       _history_h self' = Some hh /\ shape hh = [1%nat] /\
       _states self' = Some st /\ shape st = [1%nat; length (mesh_points self)]).
Proof.
  intros Hcontract.
  assert (Hcached : forall s h, recomputed get_states s h -> exists n, cached n s).
  { intros s h (st & Eh & Est & Egs).
    destruct (Hcontract _ _ _ _ _ _ Egs) as (n & Sh & Wh & Sst & Wst).
    exists n, h, st. auto 6. }
  split; [|split].
  - intros h m self' H.
    assert (Htr : transformer self'
                  = transformer (after_transform_rebuild HysteresisTransform_new self h m)).
    { revert H. unfold set_history, _update_h_history_buffer, after_transform_rebuild.
      monad_unfold. intros H.
      destruct (_trainable self && negb (fixed_scaling self));
        mcases H; inversion H; subst; reflexivity. }
    apply set_history_recomputes in H. destruct H as [Hrec _].
    rewrite <- Htr in Hrec.
    destruct (Hcached _ _ Hrec) as (n & Hc). exists n. auto.
  - intros x self' H.
    apply apply_field_recomputes in H. destruct H as (hh & Hrec & _ & Hcat).
    destruct (Hcached _ _ Hrec) as (n & Hc). exists n, hh. auto.
  - intros x Htot Hh Hx Hc Hs Hw.
    assert (S1 : shape (atleast_1d x) = [1%nat]).
    { unfold atleast_1d. destruct Hx as [E|E]; rewrite E; [reflexivity|].
      exact E. }
    rewrite S1 in Hs.
    destruct (@apply_field_first get_states self x Htot Hh Hc Hs Hw) as (self' & H).
    pose proof (@apply_field_recomputes get_states self self' x H) as (hh & (st & Eh & Est & Egs) & Hmesh & Hcat).
    rewrite Hh in Hcat. subst hh.
    destruct (Hcontract _ _ _ _ _ _ Egs) as (n & Sh & Wh & Sst & Wst).
    rewrite Hs in Sh. inversion Sh; subst n.
    exists self', (fst (transform (transformer self) (atleast_1d x) None)), st.
    rewrite <- Hmesh. auto 6.
Qed.

(** ** The prediction returned by [forward] *)

Section Prediction.

Variables (get_states predict_batched_state : states_fn).

(** The current state and field [forward] reads off the cache: the last
    row of the state matrix and the last stored field, or nothing when no
    history is stored. *)
Definition current_of (self : BaseHysteresis)
    (current_state current_fld : option Tensor) : Prop :=
  match _history_h self with
  | None => current_state = None /\ current_fld = None
  | Some h =>
      exists st cs cf,
        _states self = Some st /\ select_last h = Ok cf /\ select_last st = Ok cs /\
        current_state = Some cs /\ current_fld = Some cf
  end.

(** The state matrix and the normalized fields each mode predicts from. *)
Definition mode_states (self : BaseHysteresis) (x : option Tensor)
    (states norm_h : Tensor) : Prop :=
  match mode self with
  | FITTING => _states self = Some states /\ _history_h self = Some norm_h
  | REGRESSION =>
      exists xt, x = Some xt /\
        norm_h = fst (transform (transformer self) xt None) /\
        get_states norm_h (mesh_points self) None None (temp self) = Some states
  | CURRENT =>
      exists cs cf, current_of self (Some cs) (Some cf) /\
        states = unsqueeze0 cs /\ norm_h = unsqueeze0 cf
  | FUTURE =>
      exists xt cs cf, x = Some xt /\ current_of self cs cf /\
        norm_h = fst (transform (transformer self) xt None) /\
        get_states norm_h (mesh_points self) cs cf (temp self) = Some states
  | NEXT =>
      exists xt cs cf, x = Some xt /\ current_of self cs cf /\
        norm_h = fst (transform (transformer self) xt None) /\
        predict_batched_state norm_h (mesh_points self) cs cf (temp self) = Some states
  end.

Lemma call_ok (component : string) (r : option Tensor) (t : Tensor) :
  call component r = Ok t -> r = Some t.
Proof. destruct r; simpl; congruence. Qed.

Lemma forward_inv (self : BaseHysteresis) (x : option Tensor) (m : Tensor) :
  forward get_states predict_batched_state self x false = Ok (Some m) ->
  exists states norm_h,
    mode_states self x states norm_h /\
    _predict_normalized_magnetization self states norm_h = Ok m.
Proof.
  unfold forward, mode_states, current_of, hasattr_history_h. intros H.
  destruct (match x with
            | Some xt => _check_inside_valid_domain self xt
            | None => if negb (Mode_eqb (mode self) CURRENT)
                      then Raise Exc.must_specify_field else Ok tt
            end) as [[]|]; [|discriminate].
  cbn [rbind] in H.
  destruct (_history_h self) as [h|] eqn:Hh; cbn [isSome getattr rbind negb] in H.
  - destruct (select_last h) as [cf|] eqn:Ecf; [|discriminate]. cbn [rbind] in H.
    destruct (_states self) as [st|] eqn:Hst; [|discriminate].
    cbn [getattr rbind] in H.
    destruct (select_last st) as [cs|] eqn:Ecs; [|discriminate].
    cbn [rbind fst snd] in H.
    destruct (mode self); cbn [rbind] in H.
    + destruct (_history_m self) as [hm|]; [|discriminate]. cbn [getattr rbind] in H.
      destruct (negb (shape_eqb (shape h) (shape hm))); [discriminate|].
      destruct (require_tensor x) as [xt|]; [|discriminate]. cbn [rbind] in H.
      destruct (allclose xt _) as [[|]|]; try discriminate.
      cbn [negb rbind fst snd] in H.
      destruct (_predict_normalized_magnetization self st h) as [m'|] eqn:Ep;
        [|discriminate].
      inversion H; subst. exists st, h. auto.
    + destruct x as [xt|]; [|discriminate]. cbn [require_tensor rbind] in H.
      destruct (call _ _) as [states|] eqn:Ec; [|discriminate].
      apply call_ok in Ec. cbn [rbind fst snd] in H.
      destruct (_predict_normalized_magnetization self states _) as [m'|] eqn:Ep;
        [|discriminate].
      inversion H; subst. eexists _, _. split; [|exact Ep]. eauto.
    + destruct x as [xt|]; [|discriminate]. cbn [require_tensor rbind] in H.
      destruct (call _ _) as [states|] eqn:Ec; [|discriminate].
      apply call_ok in Ec. cbn [rbind fst snd] in H.
      destruct (_predict_normalized_magnetization self states _) as [m'|] eqn:Ep;
        [|discriminate].
      inversion H; subst. eexists _, _. split; [|exact Ep].
      exists xt, (Some cs), (Some cf). repeat split; eauto 10.
    + destruct x as [xt|]; [|discriminate]. cbn [require_tensor rbind] in H.
      destruct (negb (rank xt =? 1)%nat); [discriminate|].
      destruct (call _ _) as [states|] eqn:Ec; [|discriminate].
      apply call_ok in Ec. cbn [rbind fst snd] in H.
      destruct (_predict_normalized_magnetization self states _) as [m'|] eqn:Ep;
        [|discriminate].
      inversion H; subst. eexists _, _. split; [|exact Ep].
      exists xt, (Some cs), (Some cf). repeat split; eauto 10.
    + destruct (_predict_normalized_magnetization self _ _) as [m'|] eqn:Ep;
        [|discriminate].
      inversion H; subst. eexists _, _. split; [|exact Ep].
      exists cs, cf. repeat split; eauto 10.
  - cbn [fst snd] in H.
    destruct (mode self); cbn [rbind] in H; try discriminate.
    + destruct x as [xt|]; [|discriminate]. cbn [require_tensor rbind] in H.
      destruct (call _ _) as [states|] eqn:Ec; [|discriminate].
      apply call_ok in Ec. cbn [rbind fst snd] in H.
      destruct (_predict_normalized_magnetization self states _) as [m'|] eqn:Ep;
        [|discriminate].
      inversion H; subst. eexists _, _. split; [|exact Ep]. eauto.
    + destruct x as [xt|]; [|discriminate]. cbn [require_tensor rbind] in H.
      destruct (call _ _) as [states|] eqn:Ec; [|discriminate].
      apply call_ok in Ec. cbn [rbind fst snd] in H.
      destruct (_predict_normalized_magnetization self states _) as [m'|] eqn:Ep;
        [|discriminate].
      inversion H; subst. eexists _, _. split; [|exact Ep].
      exists xt, None, None. auto.
    + destruct x as [xt|]; [|discriminate]. cbn [require_tensor rbind] in H.
      destruct (negb (rank xt =? 1)%nat); [discriminate|].
      destruct (call _ _) as [states|] eqn:Ec; [|discriminate].
      apply call_ok in Ec. cbn [rbind fst snd] in H.
      destruct (_predict_normalized_magnetization self states _) as [m'|] eqn:Ep;
        [|discriminate].
      inversion H; subst. eexists _, _. split; [|exact Ep].
      exists xt, None, None. auto.
Qed.

End Prediction.

Lemma mode_states_shapes
    (get_states predict_batched_state : states_fn)
    (self : BaseHysteresis) (x : option Tensor) (states norm_h : Tensor) :
  states_contract get_states -> states_contract predict_batched_state ->
  cache_ok self ->
  mode_states get_states predict_batched_state self x states norm_h ->
  exists n,
    shape states = [n; length (mesh_points self)] /\ wf states /\
    shape norm_h = [n] /\ wf norm_h.
Proof.
  intros Hgs Hpbs Hcache. unfold mode_states, current_of.
  destruct (mode self).
  - intros [Hst Hh].
    destruct Hcache as (n & h & st & Eh & Est & Sh & Wh & Sst & Wst); [congruence|].
    exists n. rewrite Hst in Est. rewrite Hh in Eh.
    inversion Est; inversion Eh; subst. auto.
  - intros (xt & _ & _ & E).
    destruct (Hgs _ _ _ _ _ _ E) as (n & ? & ? & ? & ?). exists n. auto.
  - intros (xt & cs & cf & _ & _ & _ & E).
    destruct (Hpbs _ _ _ _ _ _ E) as (n & ? & ? & ? & ?). exists n. auto.
  - intros (xt & cs & cf & _ & _ & _ & E).
    destruct (Hgs _ _ _ _ _ _ E) as (n & ? & ? & ? & ?). exists n. auto.
  - intros (cs & cf & Hcur & -> & ->).
    destruct (_history_h self) as [h|] eqn:Hh; [|destruct Hcur; discriminate].
    destruct Hcur as (st & cs' & cf' & Est & Ecf & Ecs & Es & Ef).
    inversion Es; inversion Ef; subst cs' cf'.
    destruct Hcache as (n & h' & st' & Eh' & Est' & Sh & Wh & Sst & Wst); [congruence|].
    rewrite Hh in Eh'. rewrite Est in Est'. inversion Eh'; inversion Est'; subst h' st'.
    destruct n as [|k].
    { unfold select_last in Ecf. rewrite Sh in Ecf. discriminate. }
    destruct (select_last_vec Sh Wh) as (v & Ev & _).
    destruct (select_last_matrix Sst Wst) as (row & Er & Lr & _).
    rewrite Ev in Ecf. rewrite Er in Ecs. inversion Ecf; inversion Ecs; subst.
    exists 1%nat. repeat split.
    red. cbn [unsqueeze0 shape data numel fold_right]. lia.
Qed.

(** C2.  In every mode, the normalized magnetization [forward] returns is,
    entry by entry, scale * (sum_j density_j * state_j / sum_j density_j)
    + offset + slope * h, over the rows of the state matrix of the mode and
    the normalized fields of the mode.  The state functions are assumed to
    meet their contract and the model to hold a consistent cache and the
    parameter shapes of its constructor. *)
Theorem forward_prediction_formula
    (get_states predict_batched_state : states_fn)
    (self : BaseHysteresis) (x : option Tensor) (m : Tensor) (sc off sl : Q) :
  states_contract get_states -> states_contract predict_batched_state ->
  cache_ok self -> density_ok self ->
  param (scale self) sc -> param (offset self) off -> param (slope self) sl ->
  forward get_states predict_batched_state self x false = Ok (Some m) ->
  exists states norm_h n,
    mode_states get_states predict_batched_state self x states norm_h /\
    shape states = [n; length (mesh_points self)] /\
    shape norm_h = [n] /\ shape m = [n] /\
    Forall2 Qeq (data m)
      (map2 (m_norm sc off sl (data (hysterion_density self)))
         (chunks (length (mesh_points self)) n (data states)) (data norm_h)).
Proof.
  intros Hgs Hpbs Hcache Hd Hsc Hoff Hsl H.
  apply forward_inv in H. destruct H as (states & norm_h & Hms & Ep).
  destruct (@mode_states_shapes _ _ _ _ _ _ Hgs Hpbs Hcache Hms)
    as (n & Sst & Wst & Sh & Wh).
  destruct (@predict_spec self states norm_h n sc off sl Hd Hsc Hoff Hsl Sst Wst Sh Wh)
    as (m' & Ep' & Sm & _ & Hf).
  rewrite Ep in Ep'. inversion Ep'; subst m'.
  exists states, norm_h, n. auto 6.
Qed.

(** ** The sample collaborators meet the contracts *)

Lemma replay_length (mesh : list (Q * Q)) (hs prev : list Q) :
  length prev = length mesh ->
  length (concat (Sample.replay mesh prev hs)) = (length hs * length mesh)%nat.
Proof.
  revert prev. induction hs as [|h hs IH]; intros prev Hp; simpl; [reflexivity|].
  rewrite length_app, IH.
  - rewrite map2_length by lia. reflexivity.
  - rewrite map2_length by lia. reflexivity.
Qed.

Lemma start_length (mesh : list (Q * Q)) (cs : option Tensor) :
  length (Sample.start mesh cs) = length mesh.
Proof.
  unfold Sample.start. destruct cs as [c|].
  - destruct (length (data c) =? length mesh)%nat eqn:E.
    + now apply Nat.eqb_eq.
    + apply repeat_length.
  - apply repeat_length.
Qed.

Lemma sample_input_shape (h : Tensor) :
  ((rank h =? 1)%nat && wfb h)%bool = true ->
  shape h = [length (data h)] /\ wf h.
Proof.
  intros H. apply andb_true_iff in H. destruct H as [Hr Hw].
  apply Nat.eqb_eq in Hr. apply Nat.eqb_eq in Hw.
  unfold rank in Hr. destruct (shape h) as [|n [|k s]] eqn:Es; simpl in Hr; try lia.
  unfold wf. rewrite Es in *. rewrite numel_vec in Hw. subst n.
  split; [reflexivity|]. now rewrite numel_vec.
Qed.

Lemma sample_get_states_contract : states_contract Sample.get_states.
Proof.
  intros h mesh cs cf temp st. unfold Sample.get_states.
  destruct ((rank h =? 1)%nat && wfb h)%bool eqn:E; [|discriminate].
  destruct (sample_input_shape h E) as [Sh Wh].
  intros H. inversion H; subst st. exists (length (data h)).
  repeat split; try assumption.
  red. cbn [shape data numel fold_right].
  rewrite replay_length by apply start_length. lia.
Qed.

Lemma batched_rows_length (mesh : list (Q * Q)) (prev hs : list Q) :
  length prev = length mesh ->
  length (concat (map (fun v => map2 (fun point st => Sample.relay point st v) mesh prev)
                    hs))
  = (length hs * length mesh)%nat.
Proof.
  intros Hp. induction hs as [|h hs IH]; simpl; [reflexivity|].
  rewrite length_app, IH, map2_length by lia. reflexivity.
Qed.

Lemma sample_predict_batched_state_contract :
  states_contract Sample.predict_batched_state.
Proof.
  intros h mesh cs cf temp st. unfold Sample.predict_batched_state.
  destruct ((rank h =? 1)%nat && wfb h)%bool eqn:E; [|discriminate].
  destruct (sample_input_shape h E) as [Sh Wh].
  intros H. inversion H; subst st. exists (length (data h)).
  repeat split; try assumption.
  red. cbn [shape data numel fold_right].
  rewrite batched_rows_length by apply start_length. lia.
Qed.

Lemma sample_get_states_total : states_total Sample.get_states.
Proof.
  intros h mesh cs cf temp n Sh Wh. unfold Sample.get_states, rank, wfb.
  rewrite Wh, Sh. cbn [length]. rewrite !Nat.eqb_refl. discriminate.
Qed.

(** ** The check on the magnetization history *)

Lemma check_domain_raise (self : BaseHysteresis) (values : Tensor) (e : PyExc) :
  _check_inside_valid_domain self values = Raise e -> e = Exc.outside_domain.
Proof.
  destruct (check_domain_cases self values) as [H|H]; rewrite H; congruence.
Qed.

Section DeadCheck.

Variables (get_states predict_batched_state : states_fn).
Variable HysteresisTransform_new :
  option Tensor -> option Tensor -> option Tensor -> nat -> nat -> HysteresisTransform.

Lemma forward_never_history_m_not_1d (self : BaseHysteresis) (x : option Tensor)
    (rr : bool) :
  forward get_states predict_batched_state self x rr <> Raise Exc.history_m_not_1d.
Proof.
  unfold forward.
  destruct x as [xt|]; destruct (mode self) eqn:Hm; cbn [Mode_eqb negb rbind];
    repeat rstep; classify;
    repeat match goal with
      | H : _check_inside_valid_domain _ _ = Raise _ |- _ =>
          apply check_domain_raise in H; subst
      end;
    discriminate.
Qed.

(** No call of [set_history] raises "history_m must be a 1D tensor": its
    condition tests [history_h], which the check before it has already
    found to be 1-dimensional. *)
Lemma set_history_never_history_m_not_1d (self : BaseHysteresis) (h : Tensor)
    (m : option Tensor) :
  snd (set_history get_states predict_batched_state HysteresisTransform_new h m self)
  <> Raise Exc.history_m_not_1d.
Proof.
  unfold set_history, _update_h_history_buffer. monad_unfold.
  intros H.
  mcases H; cbn [snd] in H; classify; try discriminate;
    inversion H; subst;
    match goal with
    | E : forward _ _ _ _ _ = Raise _ |- _ =>
        exact (forward_never_history_m_not_1d _ _ _ E)
    end.
Qed.

End DeadCheck.

(** C8.  [set_history] never raises "history_m must be a 1D tensor": the
    check tests the shape of [history_h] once more instead of the shape of
    [history_m].  With the 1-D fields [h3] and the 3x1 column [m3_column]
    the call succeeds and stores the 2-dimensional magnetization history. *)
Theorem set_history_accepts_non_1d_m :
  (forall (get_states predict_batched_state : states_fn)
          (HysteresisTransform_new :
             option Tensor -> option Tensor -> option Tensor -> nat -> nat ->
             HysteresisTransform)
          (self : BaseHysteresis) (h : Tensor) (m : option Tensor),
     snd (set_history get_states predict_batched_state HysteresisTransform_new h m self)
     <> Raise Exc.history_m_not_1d) /\
  rank Sample.h3 = 1%nat /\ rank Sample.m3_column = 2%nat /\
  Sample.outcome (Sample.set_history Sample.h3 (Some Sample.m3_column))
    (Sample.fresh FITTING) = Ok tt /\
  _history_m (Sample.run (Sample.set_history Sample.h3 (Some Sample.m3_column))
                (Sample.fresh FITTING))
  = Some Sample.m3_column.
Proof.
  split; [intros; apply set_history_never_history_m_not_1d|].
  repeat split; vm_compute; reflexivity.
Qed.

(** ** The claims that fail as stated, at explicit inputs *)

(** C1 as stated fails: the model [Sample.extended] has its history set
    and is in FITTING mode, the input is its stored untransformed history,
    and [forward] raises instead of returning the prediction. *)
Lemma forward_fitting_counterexample :
  mode Sample.extended = FITTING /\
  _history_h Sample.extended <> None /\
  exists x,
    history_h Sample.extended = Ok x /\
    allclose x x = Ok true /\
    Sample.forward Sample.extended (Some x) false
    = Raise Exc.history_shape_mismatch /\
    ~ exists m, Sample.forward Sample.extended (Some x) false = Ok (Some m).
Proof.
  split; [reflexivity|]. split; [vm_compute; discriminate|].
  eexists. split; [vm_compute; reflexivity|].
  split; [vm_compute; reflexivity|].
  assert (E : Sample.forward Sample.extended
                (Some (mkTensor [4%nat] [-2 # 2; 0 # 2; 2 # 4; 0.8]%Q)) false
              = Raise Exc.history_shape_mismatch)
    by (vm_compute; reflexivity).
  split; [exact E|]. intros [m Hm]. rewrite E in Hm. discriminate.
Qed.

(** C5 as stated fails: after [reset_history] on a model with history the
    cached state matrix is still there. *)
Lemma reset_history_counterexample :
  _history_h (Sample.trained CURRENT) <> None /\
  _history_m (Sample.trained CURRENT) <> None /\
  Sample.outcome reset_history (Sample.trained CURRENT) = Ok tt /\
  _states (Sample.run reset_history (Sample.trained CURRENT)) <> None.
Proof.
  repeat split; vm_compute; discriminate || reflexivity.
Qed.

(** C6 as stated fails: in FUTURE mode with no history set, [forward]
    produces a prediction. *)
Lemma forward_future_counterexample :
  mode (Sample.fresh FUTURE) = FUTURE /\
  _history_h (Sample.fresh FUTURE) = None /\
  Sample.forward (Sample.fresh FUTURE) (Some (Sample.vec [1 # 2]%Q)) false
  = Ok (Some (mkTensor [1%nat] [544 # 384]%Q)).
Proof.
  repeat split; vm_compute; reflexivity.
Qed.

(** ** The theorems at explicit inputs *)

Lemma domain_error_iff_outside_witness :
  (fst (valid_domain (Sample.fresh REGRESSION))
   <= snd (valid_domain (Sample.fresh REGRESSION)))%Q /\
  Sample.forward (Sample.fresh REGRESSION) (Some (Sample.vec [1 - (1 # 100000)]%Q)) false
  <> Raise Exc.outside_domain /\
  Sample.forward (Sample.fresh REGRESSION) (Some (Sample.vec [1 + 1]%Q)) false
  = Raise Exc.outside_domain.
Proof.
  assert (Hdom : (fst (valid_domain (Sample.fresh REGRESSION))
                  <= snd (valid_domain (Sample.fresh REGRESSION)))%Q)
    by (vm_compute; discriminate).
  split; [exact Hdom|]. split.
  - refine (proj1 (proj2 (proj2 (proj2
      (domain_error_iff_outside Sample.get_states Sample.predict_batched_state
         (Sample.fresh REGRESSION) (Sample.vec [1 - (1 # 100000)]%Q) false))) Hdom _)).
    intros v [<-|[]]. reflexivity.
  - refine (proj1 (proj1 (proj2 (proj2
      (domain_error_iff_outside Sample.get_states Sample.predict_batched_state
         (Sample.fresh REGRESSION) (Sample.vec [1 + 1]%Q) false))) _)).
    exists (1 + 1)%Q. split; [left; reflexivity|reflexivity].
Defined.

Lemma forward_without_input_witness :
  mode (Sample.fresh NEXT) <> CURRENT /\
  Sample.forward (Sample.fresh NEXT) None false = Raise Exc.must_specify_field /\
  exists m, Sample.forward (Sample.trained CURRENT) None false = Ok (Some m).
Proof.
  assert (Hm : mode (Sample.fresh NEXT) <> CURRENT) by discriminate.
  split; [exact Hm|]. split.
  - exact (proj1 (proj1 (forward_without_input Sample.get_states
                           Sample.predict_batched_state (Sample.fresh NEXT) false) Hm)).
  - refine (proj2 (proj2 (forward_without_input Sample.get_states
                            Sample.predict_batched_state (Sample.trained CURRENT) false))
              eq_refl 2%nat 1%Q 0%Q 1%Q _ _ _ _ _).
    + eexists _, _. repeat split; vm_compute; reflexivity.
    + split; vm_compute; reflexivity.
    + reflexivity.
    + reflexivity.
    + reflexivity.
Defined.

Lemma set_history_rejects_equal_witness :
  equal Sample.h3 Sample.h3 = true /\
  exists self',
    Sample.set_history Sample.h3 (Some Sample.h3) (Sample.fresh FITTING)
    = (self', Raise Exc.train_h_m_equal) /\
    _history_h self' = None.
Proof.
  assert (He : equal Sample.h3 Sample.h3 = true) by reflexivity.
  split; [exact He|].
  destruct (set_history_rejects_equal Sample.get_states Sample.predict_batched_state
              Sample.HysteresisTransform_new (Sample.fresh FITTING)
              Sample.h3 Sample.h3 He)
    as (e & self' & H & _ & He1 & Hh & _).
  exists self'. rewrite (He1 eq_refl) in H. split; [exact H|exact Hh].
Defined.

Lemma set_history_restores_mode_witness :
  Sample.outcome (Sample.set_history Sample.h3 None) (Sample.fresh FUTURE) = Ok tt /\
  mode (Sample.run (Sample.set_history Sample.h3 None) (Sample.fresh FUTURE)) = FUTURE.
Proof.
  split; [vm_compute; reflexivity|].
  refine (proj1 (@set_history_restores_mode Sample.get_states
                   Sample.predict_batched_state Sample.HysteresisTransform_new
                   (Sample.fresh FUTURE)
                   (Sample.run (Sample.set_history Sample.h3 None) (Sample.fresh FUTURE))
                   Sample.h3 _)).
  vm_compute; reflexivity.
Defined.

Lemma reset_history_discards_history_witness :
  exists self',
    reset_history (Sample.trained CURRENT) = (self', Ok tt) /\
    _history_h self' = None /\ _history_m self' = None /\
    Sample.forward (with_mode self' CURRENT) None false = Raise Exc.no_history_data.
Proof.
  destruct (@reset_history_discards_history Sample.get_states
              Sample.predict_batched_state (Sample.trained CURRENT)
              (mkTensor [3%nat] [0 # 2; 1 # 2; 3 # 4]%Q) Sample.m3
              ltac:(vm_compute; reflexivity) ltac:(vm_compute; reflexivity))
    as (self' & Hr & Hh & Hm & _ & Hf & _).
  exists self'. split; [exact Hr|]. split; [exact Hh|]. split; [exact Hm|].
  destruct (Hf None false) as (e & He & _ & Hnone & _).
  destruct (Hnone I) as [-> _]. exact He.
Defined.

Lemma forward_future_requirements_witness :
  mode (Sample.fresh FUTURE) = FUTURE /\
  Sample.forward (Sample.fresh FUTURE) None false = Raise Exc.must_specify_field /\
  Sample.forward (Sample.fresh FUTURE) (Some Sample.m3_column) false
  = Raise Exc.future_not_1d /\
  Sample.forward (Sample.fresh FUTURE) (Some Sample.h3) false
  = Sample.forward (with_mode (Sample.fresh FUTURE) REGRESSION) (Some Sample.h3) false.
Proof.
  pose proof (@forward_future_requirements Sample.get_states
                Sample.predict_batched_state (Sample.fresh FUTURE) false eq_refl)
    as (H1 & H2 & H3).
  split; [reflexivity|]. split; [exact H1|]. split.
  - destruct (H2 Sample.m3_column ltac:(discriminate)) as (e & He & Hwhich).
    rewrite (Hwhich ltac:(vm_compute; reflexivity) (or_introl eq_refl)) in He.
    exact He.
  - exact (H3 Sample.h3 eq_refl eq_refl).
Defined.

Lemma forward_fitting_checks_history_witness :
  Sample.forward (Sample.trained FITTING) (Some (Sample.vec [-1; 0; 1 # 4]%Q)) false
  = Raise Exc.must_regress_on_history /\
  exists m,
    Sample.forward (Sample.trained FITTING) (Some Sample.h3) false = Ok (Some m) /\
    shape m = [3%nat].
Proof.
  pose (hh := mkTensor [3%nat] [0 # 2; 1 # 2; 3 # 4]%Q).
  pose (st := mkTensor [3%nat; 3%nat] [0; 0; 0; 1; 0; 0; 1; 1; 0]%Q).
  split.
  - refine (proj1 (proj1 (proj1
      (@forward_fitting_checks_history Sample.get_states Sample.predict_batched_state
         (Sample.trained FITTING) (Sample.vec [-1; 0; 1 # 4]%Q) hh Sample.m3 st 2
         eq_refl _ _ eq_refl eq_refl eq_refl eq_refl _ _) eq_refl) _ false));
      vm_compute; reflexivity.
  - refine (proj2 (proj2 (proj1 (proj2 (proj1
      (@forward_fitting_checks_history Sample.get_states Sample.predict_batched_state
         (Sample.trained FITTING) Sample.h3 hh Sample.m3 st 2
         eq_refl _ _ eq_refl eq_refl eq_refl eq_refl _ _) eq_refl)) _))
      1%Q 0%Q 1%Q _ _ _ _);
      try (vm_compute; reflexivity).
    split; vm_compute; reflexivity.
Defined.

Lemma history_change_recomputes_states_witness :
  states_contract Sample.get_states /\
  exists self' hh st,
    Sample.apply_field (mkTensor [] [1 # 2]%Q) (Sample.fresh FITTING) = (self', Ok tt) /\
    _history_h self' = Some hh /\ shape hh = [1%nat] /\
    _states self' = Some st /\ shape st = [1%nat; 3%nat].
Proof.
  split; [exact sample_get_states_contract|].
  refine (proj2 (proj2
    (@history_change_recomputes_states Sample.get_states Sample.predict_batched_state
       Sample.HysteresisTransform_new (Sample.fresh FITTING)
       sample_get_states_contract))
    (mkTensor [] [1 # 2]%Q) sample_get_states_total eq_refl (or_introl eq_refl) _ _ _);
    vm_compute; reflexivity.
Defined.

Lemma forward_prediction_formula_witness :
  exists states norm_h n,
    mode_states Sample.get_states Sample.predict_batched_state
      (Sample.trained FITTING) (Some Sample.h3) states norm_h /\
    shape states = [n; 3%nat] /\ shape norm_h = [n] /\
    Forall2 Qeq [0 # 192; 160 # 192; 544 # 384]%Q
      (map2 (m_norm 1 0 1 (data (hysterion_density (Sample.trained FITTING))))
         (chunks 3 n (data states)) (data norm_h)).
Proof.
  destruct (@forward_prediction_formula Sample.get_states Sample.predict_batched_state
              (Sample.trained FITTING) (Some Sample.h3)
              (mkTensor [3%nat] [0 # 192; 160 # 192; 544 # 384]%Q) 1%Q 0%Q 1%Q
              sample_get_states_contract sample_predict_batched_state_contract)
    as (states & norm_h & n & H1 & H2 & H3 & _ & H4).
  - intros _. exists 3%nat. eexists _, _. repeat split; vm_compute; reflexivity.
  - split; vm_compute; reflexivity.
  - reflexivity.
  - reflexivity.
  - reflexivity.
  - vm_compute; reflexivity.
  - exists states, norm_h, n. auto.
Defined.

(** * Further properties of the code *)

(** ** [forward]: the two result conventions *)

Section ForwardStages.

Variables (get_states predict_batched_state : states_fn).

Let fwd := forward get_states predict_batched_state.
Let mstates := mode_states get_states predict_batched_state.

(** [forward] runs its checks and picks the states and fields of the mode
    in the same way for both values of [return_real]; only the last step
    differs. *)
Lemma forward_stages (self : BaseHysteresis) (x : option Tensor) :
  exists stage : result (Tensor * Tensor),
    (forall rr,
       fwd self x rr =
       let* sn := stage in
       let* m := _predict_normalized_magnetization self (fst sn) (snd sn) in
       if rr then Ok (snd (untransform (transformer self) (snd sn) (Some m)))
       else Ok (Some m)) /\
    (forall states norm_h, stage = Ok (states, norm_h) -> mstates self x states norm_h).
Proof.
  unfold fwd, mstates, forward, mode_states, current_of, hasattr_history_h.
  destruct (match x with
            | Some xt => _check_inside_valid_domain self xt
            | None => if negb (Mode_eqb (mode self) CURRENT)
                      then Raise Exc.must_specify_field else Ok tt
            end) as [[]|e0];
    [|exists (Raise e0); split; [reflexivity|discriminate]].
  cbn [rbind].
  destruct (_history_h self) as [h|] eqn:Hh; cbn [isSome getattr rbind negb].
  - destruct (select_last h) as [cf|e1] eqn:Ecf;
      [|exists (Raise e1); split; [reflexivity|discriminate]].
    cbn [rbind].
    destruct (_states self) as [st|] eqn:Hst;
      [|eexists (Raise _); split; [reflexivity|discriminate]].
    cbn [getattr rbind].
    destruct (select_last st) as [cs|e2] eqn:Ecs;
      [|exists (Raise e2); split; [reflexivity|discriminate]].
    cbn [rbind fst snd].
    eexists. split; [intros rr; reflexivity|].
    intros states norm_h. destruct (mode self); cbn [rbind].
    + destruct (_history_m self) as [hm|]; [|discriminate]. cbn [getattr rbind].
      destruct (negb (shape_eqb (shape h) (shape hm))); [discriminate|].
      destruct (require_tensor x) as [xt|]; [|discriminate]. cbn [rbind].
      destruct (allclose xt _) as [[|]|]; try discriminate.
      cbn [negb rbind]. intros H; inversion H; subst. auto.
    + destruct x as [xt|]; [|discriminate]. cbn [require_tensor rbind].
      destruct (call _ _) as [s0|] eqn:Ec; [|discriminate].
      apply call_ok in Ec. cbn [rbind]. intros H; inversion H; subst. eauto.
    + destruct x as [xt|]; [|discriminate]. cbn [require_tensor rbind].
      destruct (call _ _) as [s0|] eqn:Ec; [|discriminate].
      apply call_ok in Ec. cbn [rbind]. intros H; inversion H; subst.
      exists xt, (Some cs), (Some cf). repeat split; eauto 10.
    + destruct x as [xt|]; [|discriminate]. cbn [require_tensor rbind].
      destruct (negb (rank xt =? 1)%nat); [discriminate|].
      destruct (call _ _) as [s0|] eqn:Ec; [|discriminate].
      apply call_ok in Ec. cbn [rbind]. intros H; inversion H; subst.
      exists xt, (Some cs), (Some cf). repeat split; eauto 10.
    + intros H; inversion H; subst. exists cs, cf. repeat split; eauto 10.
  - cbn [fst snd]. eexists. split; [intros rr; reflexivity|].
    intros states norm_h. destruct (mode self); cbn [rbind]; try discriminate.
    + destruct x as [xt|]; [|discriminate]. cbn [require_tensor rbind].
      destruct (call _ _) as [s0|] eqn:Ec; [|discriminate].
      apply call_ok in Ec. cbn [rbind]. intros H; inversion H; subst. eauto.
    + destruct x as [xt|]; [|discriminate]. cbn [require_tensor rbind].
      destruct (call _ _) as [s0|] eqn:Ec; [|discriminate].
      apply call_ok in Ec. cbn [rbind]. intros H; inversion H; subst.
      exists xt, None, None. auto.
    + destruct x as [xt|]; [|discriminate]. cbn [require_tensor rbind].
      destruct (negb (rank xt =? 1)%nat); [discriminate|].
      destruct (call _ _) as [s0|] eqn:Ec; [|discriminate].
      apply call_ok in Ec. cbn [rbind]. intros H; inversion H; subst.
      exists xt, None, None. auto.
Qed.

End ForwardStages.

(** X1.  [forward(x, return_real=True)] and [forward(x)] fail in the same
    cases with the same exception; when [forward(x)] returns the normalized
    magnetization [m], [forward(x, return_real=True)] returns the second
    component of [untransform(norm_h, m)] for the normalized fields of the
    mode; and [forward(x)] never returns [None]. *)
Theorem forward_return_real
    (get_states predict_batched_state : states_fn)
    (self : BaseHysteresis) (x : option Tensor) :
  (forall e,
     forward get_states predict_batched_state self x true = Raise e <->
     forward get_states predict_batched_state self x false = Raise e) /\
  (forall m,
     forward get_states predict_batched_state self x false = Ok (Some m) ->
     exists states norm_h,
       mode_states get_states predict_batched_state self x states norm_h /\
       _predict_normalized_magnetization self states norm_h = Ok m /\
       forward get_states predict_batched_state self x true
       = Ok (snd (untransform (transformer self) norm_h (Some m)))) /\
  forward get_states predict_batched_state self x false <> Ok None.
Proof.
  destruct (forward_stages get_states predict_batched_state self x)
    as (stage & Hrun & Hst).
  rewrite (Hrun true), (Hrun false).
  destruct stage as [[states norm_h]|e0]; cbn [rbind fst snd].
  - destruct (_predict_normalized_magnetization self states norm_h) as [m0|e1] eqn:Ep;
      cbn [rbind].
    + split; [|split].
      * intros e. split; intros H; discriminate H.
      * intros m H. inversion H; subst. exists states, norm_h.
        split; [apply Hst; reflexivity|]. split; [exact Ep|reflexivity].
      * discriminate.
    + split; [|split]; try discriminate. intros e. tauto.
  - split; [|split]; try discriminate. intros e. tauto.
Qed.

(** X2.  In CURRENT mode the input is only validated: with an input that
    passes the domain check, [forward] returns what it returns without an
    input; with any other input it raises the domain error, whether or not
    a history is stored. *)
Theorem forward_current_ignores_input
    (get_states predict_batched_state : states_fn)
    (self : BaseHysteresis) (x : Tensor) (return_real : bool) :
  mode self = CURRENT ->
  (_check_inside_valid_domain self x = Ok tt ->
   forward get_states predict_batched_state self (Some x) return_real
   = forward get_states predict_batched_state self None return_real) /\
  (_check_inside_valid_domain self x <> Ok tt ->
   forward get_states predict_batched_state self (Some x) return_real
   = Raise Exc.outside_domain).
Proof.
  intros Hm. split; intros Hc.
  - unfold forward. rewrite Hm, Hc. reflexivity.
  - destruct (check_domain_cases self x) as [E|E]; [|contradiction].
    unfold forward. rewrite E. reflexivity.
Qed.

(** X3.  With a stored field history of length 0, every call of [forward]
    that gets past the input checks raises [IndexError], in every mode:
    the last stored field is read before the mode is looked at. *)
Theorem forward_empty_history
    (get_states predict_batched_state : states_fn)
    (self : BaseHysteresis) (h : Tensor) (x : option Tensor) (return_real : bool) :
  _history_h self = Some h -> shape h = [0%nat] ->
  match x with
  | Some xt => _check_inside_valid_domain self xt = Ok tt
  | None => mode self = CURRENT
  end ->
  exists msg,
    forward get_states predict_batched_state self x return_real
    = Raise (IndexError msg).
Proof.
  intros Hh Hs Hx. unfold forward, hasattr_history_h, select_last.
  rewrite Hh. cbn [isSome getattr rbind]. rewrite Hs.
  destruct x as [xt|]; [rewrite Hx|rewrite Hx]; cbn [Mode_eqb negb rbind];
    eexists; reflexivity.
Qed.

(** ** [apply_field]: what it appends and what it leaves alone *)

Lemma cat_vectors (a b : Tensor) (n k : nat) :
  shape a = [n] -> wf a -> shape b = [k] -> wf b ->
  exists c, cat a b = Ok c /\ shape c = [(n + k)%nat] /\ data c = data a ++ data b.
Proof.
  intros Sa Wa Sb Wb. unfold cat, is_empty_1d.
  assert (La : length (data a) = n) by (red in Wa; rewrite Wa, Sa, numel_vec; reflexivity).
  assert (Lb : length (data b) = k) by (red in Wb; rewrite Wb, Sb, numel_vec; reflexivity).
  destruct (shape_eqb (shape a) [0%nat]) eqn:Ea.
  - apply shape_eqb_eq in Ea. rewrite Sa in Ea. inversion Ea; subst n.
    rewrite Sb. exists b. destruct (data a); [|discriminate]. auto.
  - destruct (shape_eqb (shape b) [0%nat]) eqn:Eb.
    + apply shape_eqb_eq in Eb. rewrite Sb in Eb. inversion Eb; subst k.
      rewrite Sa. exists a. destruct (data b); [|discriminate].
      rewrite Sa, Nat.add_0_r, app_nil_r. auto.
    + rewrite Sa, Sb. cbn [shape_eqb]. rewrite shape_eqb_refl.
      eexists. split; [reflexivity|]. auto.
Qed.

Section ApplyField.

Variable get_states : states_fn.

(** The parts of the model [apply_field] and [reset_history] never write. *)
Definition same_configuration (self self' : BaseHysteresis) : Prop :=
  mode self' = mode self /\ transformer self' = transformer self /\
  mesh_points self' = mesh_points self /\ temp self' = temp self /\
  hysterion_density self' = hysterion_density self /\
  offset self' = offset self /\ scale self' = scale self /\ slope self' = slope self /\
  fixed_scaling self' = fixed_scaling self /\ _trainable self' = _trainable self.

Lemma apply_field_frame (self self' : BaseHysteresis) (x : Tensor) (r : result unit) :
  apply_field get_states x self = (self', r) ->
  _history_m self' = _history_m self /\ same_configuration self self'.
Proof.
  unfold apply_field, _update_h_history_buffer, same_configuration. monad_unfold.
  intros H. mcases H; inversion H; subst; repeat split.
Qed.

Lemma apply_field_failure (self self' : BaseHysteresis) (x : Tensor) (e : PyExc) :
  apply_field get_states x self = (self', Raise e) ->
  (e <> CollaboratorError "get_states" /\ self' = self) \/
  (e = CollaboratorError "get_states" /\
   exists h, self' = with_history_h self (Some h) /\
     get_states h (mesh_points self) None None (temp self) = None).
Proof.
  unfold apply_field, _update_h_history_buffer. monad_unfold. intros H.
  destruct (_check_inside_valid_domain self (atleast_1d x)) as [[]|e0] eqn:Ec.
  - destruct (isSome (_history_h self)).
    + destruct (getattr "_history_h" (_history_h self)) as [old|e1] eqn:Eg.
      * destruct (cat old _) as [h|e2] eqn:Ecat.
        -- cbn [with_history_h _history_h getattr mesh_points temp] in H.
           destruct (get_states h (mesh_points self) None None (temp self)) eqn:Egs;
             cbn [call] in H; inversion H; subst.
           right. split; [reflexivity|]. eauto.
        -- inversion H; subst. classify. left. split; [discriminate|reflexivity].
      * inversion H; subst. classify. left. split; [discriminate|reflexivity].
    + cbn [with_history_h _history_h getattr mesh_points temp] in H.
      destruct (get_states _ (mesh_points self) None None (temp self)) eqn:Egs;
        cbn [call] in H; inversion H; subst.
      right. split; [reflexivity|]. eauto.
  - inversion H; subst. apply check_domain_raise in Ec. subst.
    left. split; [discriminate|reflexivity].
Qed.

End ApplyField.

(** X4.  A successful [apply_field] on a model with a stored field history
    stores the old normalized fields followed by the transformed new ones:
    for an old history of [n] fields and [k] new ones the new history has
    [n + k] entries.  The stored magnetization history, the mode, the
    transform and the parameters are left as they were. *)
Theorem apply_field_appends
    (get_states : states_fn) (self self' : BaseHysteresis) (x old : Tensor)
    (n k : nat) :
  _history_h self = Some old -> shape old = [n] -> wf old ->
  shape (fst (transform (transformer self) (atleast_1d x) None)) = [k] ->
  wf (fst (transform (transformer self) (atleast_1d x) None)) ->
  apply_field get_states x self = (self', Ok tt) ->
  (exists h,
     _history_h self' = Some h /\ shape h = [(n + k)%nat] /\
     data h = data old ++ data (fst (transform (transformer self) (atleast_1d x) None))) /\
  _history_m self' = _history_m self /\
  same_configuration self self'.
Proof.
  intros Hold Sold Wold Snew Wnew H.
  split; [|exact (apply_field_frame get_states self x H)].
  apply apply_field_recomputes in H. destruct H as (h & (st & Eh & _) & _ & Hcat).
  rewrite Hold in Hcat.
  destruct (cat_vectors Sold Wold Snew Wnew) as (c & Ec & Sc & Dc).
  rewrite Ec in Hcat. inversion Hcat; subst c. exists h. auto.
Qed.

(** X5.  A call of [apply_field] that fails leaves the model exactly as it
    was, unless the failure comes from the state function: then the field
    history has already been replaced and the cached states are the old
    ones. *)
Theorem apply_field_failure_effect
    (get_states : states_fn) (self self' : BaseHysteresis) (x : Tensor) (e : PyExc) :
  apply_field get_states x self = (self', Raise e) ->
  (e <> CollaboratorError "get_states" -> self' = self) /\
  (e = CollaboratorError "get_states" ->
   exists h, _history_h self' = Some h /\ _states self' = _states self /\
             get_states h (mesh_points self) None None (temp self) = None).
Proof.
  intros H. destruct (apply_field_failure get_states self x H)
    as [[Hne ->]|[-> (h & -> & Hgs)]].
  - split; [reflexivity|contradiction].
  - split; [intros C; contradiction|]. intros _. exists h. auto.
Qed.

(** X6.  [apply_field] extends the field history only.  On a model whose
    two histories have the same length, a successful [apply_field] of at
    least one value leaves them of different lengths, and FITTING mode then
    rejects every input that passes the domain check with "history datasets
    must match shape for fitting". *)
Theorem fitting_fails_after_apply_field
    (get_states predict_batched_state : states_fn)
    (self self' : BaseHysteresis) (x hh hm : Tensor) (n k : nat) :
  states_contract get_states ->
  mode self = FITTING ->
  _history_h self = Some hh -> shape hh = [n] -> wf hh ->
  _history_m self = Some hm -> shape hm = [n] ->
  shape (fst (transform (transformer self) (atleast_1d x) None)) = [S k] ->
  wf (fst (transform (transformer self) (atleast_1d x) None)) ->
  apply_field get_states x self = (self', Ok tt) ->
  forall xt return_real,
    _check_inside_valid_domain self' xt = Ok tt ->
    forward get_states predict_batched_state self' (Some xt) return_real
    = Raise Exc.history_shape_mismatch.
Proof.
  intros Hcontract Hmode Hh Sh Wh Hm Sm Snew Wnew H xt rr Hc.
  destruct (apply_field_frame get_states self x H) as (Hm' & Hmode' & _).
  pose proof (@apply_field_recomputes get_states self self' x H)
    as (h & (st & Eh & Est & Egs) & _ & Hcat).
  rewrite Hh in Hcat.
  destruct (cat_vectors Sh Wh Snew Wnew) as (c & Ec & Sc & _).
  rewrite Ec in Hcat. inversion Hcat; subst c.
  destruct (Hcontract _ _ _ _ _ _ Egs) as (n' & Sh' & Wh' & Sst & Wst).
  rewrite Sc in Sh'. inversion Sh'; subst n'.
  rewrite Nat.add_succ_r in Sc, Sst.
  rewrite Hm in Hm'. rewrite Hmode in Hmode'.
  rewrite (@forward_fitting get_states predict_batched_state self' xt h hm st rr
             (n + k) Hmode' Eh Est Sc Wh' Sst Wst Hm' Hc).
  rewrite Sc, Sm.
  destruct (shape_eqb [S (n + k)] [n]) eqn:E; [|reflexivity].
  apply shape_eqb_eq in E. inversion E. lia.
Qed.

(** ** [set_history]: what a call leaves behind *)

Section SetHistoryEffects.

Variables (get_states predict_batched_state : states_fn).
Variable HysteresisTransform_new :
  option Tensor -> option Tensor -> option Tensor -> nat -> nat -> HysteresisTransform.

Let set_history' := set_history get_states predict_batched_state HysteresisTransform_new.
Let rebuilt := after_transform_rebuild HysteresisTransform_new.

Lemma set_history_transformer (self self' : BaseHysteresis) (h : Tensor)
    (m : option Tensor) (r : result unit) :
  set_history' h m self = (self', r) ->
  transformer self' = transformer (rebuilt self h m).
Proof.
  unfold set_history', rebuilt, set_history, _update_h_history_buffer,
    after_transform_rebuild.
  monad_unfold. intros H.
  destruct (_trainable self && negb (fixed_scaling self));
    mcases H; inversion H; subst; reflexivity.
Qed.

(** The three ways [set_history(h)] fails. *)
Lemma set_history_none_failure (self self' : BaseHysteresis) (h : Tensor) (e : PyExc) :
  set_history' h None self = (self', Raise e) ->
  (e = Exc.history_h_not_1d /\ self' = rebuilt self h None) \/
  (e = CollaboratorError "get_states" /\ mode self' = mode self /\
   _states self' = _states self) \/
  (mode self' = REGRESSION /\ _history_m self' = _history_m self /\
   _history_h self'
     = Some (fst (transform (transformer (rebuilt self h None)) h None)) /\
   forward get_states predict_batched_state self' (Some h) false = Raise e).
Proof.
  unfold set_history', rebuilt, set_history, _update_h_history_buffer,
    after_transform_rebuild.
  monad_unfold. intros H.
  destruct (_trainable self && negb (fixed_scaling self));
    cbn [with_history_h with_transformer _history_h getattr] in H;
    mcases H; inversion H; subst; classify;
    cbn [with_history_h with_history_m with_states with_mode with_transformer
         _history_h _history_m _states mode transformer] in *;
    try (left; split; reflexivity);
    try (right; left; repeat split; reflexivity);
    try (right; right; repeat split; assumption);
    try match goal with
      | E : forward get_states predict_batched_state ?s ?x false = Ok None |- _ =>
          exfalso;
          destruct (forward_stages get_states predict_batched_state s x)
            as (stage & Hrun & _);
          rewrite (Hrun false) in E;
          destruct stage as [[? ?]|]; cbn [rbind fst snd] in E; [|discriminate];
          destruct (_predict_normalized_magnetization _ _ _);
          cbn [rbind] in E; discriminate
      end.
Qed.

End SetHistoryEffects.

(** X7.  [set_history] rebuilds the transform before it validates its
    arguments: whatever the outcome of the call, a rejection included, a
    trainable model without fixed scaling ends with the transform built
    from the arguments of the call, and any other model with the transform
    it had. *)
Theorem set_history_rebuilds_transform_first
    (get_states predict_batched_state : states_fn)
    (HysteresisTransform_new :
       option Tensor -> option Tensor -> option Tensor -> nat -> nat ->
       HysteresisTransform)
    (self self' : BaseHysteresis) (h : Tensor) (m : option Tensor) (r : result unit) :
  set_history get_states predict_batched_state HysteresisTransform_new h m self
    = (self', r) ->
  (_trainable self = true /\ fixed_scaling self = false ->
   transformer self'
   = HysteresisTransform_new (Some h) m (_fixed_domain self)
       (polynomial_degree self) (polynomial_fit_iterations self)) /\
  (_trainable self = false \/ fixed_scaling self = true ->
   transformer self' = transformer self).
Proof.
  intros H. apply set_history_transformer in H. rewrite H.
  unfold after_transform_rebuild. split.
  - intros [-> ->]. reflexivity.
  - intros [-> | ->]; [reflexivity|]. rewrite andb_false_r. reflexivity.
Qed.

(** X8.  When [set_history(h)] without [m] fails while it derives the
    magnetization (any exception but the [ValueError] on a non-1-D [h] and
    a failure of the state function), the mode is not restored: the model
    is left in REGRESSION mode, with the new field history stored and the
    magnetization history it had before. *)
Theorem set_history_failure_leaves_regression
    (get_states predict_batched_state : states_fn)
    (HysteresisTransform_new :
       option Tensor -> option Tensor -> option Tensor -> nat -> nat ->
       HysteresisTransform)
    (self self' : BaseHysteresis) (h : Tensor) (e : PyExc) :
  set_history get_states predict_batched_state HysteresisTransform_new h None self
    = (self', Raise e) ->
  e <> Exc.history_h_not_1d -> e <> CollaboratorError "get_states" ->
  mode self' = REGRESSION /\
  _history_m self' = _history_m self /\
  _history_h self'
  = Some (fst (transform
                 (transformer (after_transform_rebuild HysteresisTransform_new self h None))
                 h None)) /\
  forward get_states predict_batched_state self' (Some h) false = Raise e.
Proof.
  intros H Hne1 Hne2.
  destruct (set_history_none_failure _ _ _ _ _ H) as [[E _]|[[E _]|Hd]];
    [contradiction|contradiction|exact Hd].
Qed.

Section SetHistorySupplied.

Variables (get_states predict_batched_state : states_fn).
Variable HysteresisTransform_new :
  option Tensor -> option Tensor -> option Tensor -> nat -> nat -> HysteresisTransform.

Let set_history' := set_history get_states predict_batched_state HysteresisTransform_new.
Let rebuilt := after_transform_rebuild HysteresisTransform_new.

Lemma set_history_supplied (self : BaseHysteresis) (h m m' : Tensor) :
  snd (transform (transformer (rebuilt self h (Some m))) h (Some m)) = Some m' ->
  rank h = 1%nat -> equal h m = false ->
  set_history' h (Some m) self =
  let base :=
    with_history_h (rebuilt self h (Some m))
      (Some (fst (transform (transformer (rebuilt self h (Some m))) h (Some m)))) in
  match get_states (fst (transform (transformer (rebuilt self h (Some m))) h (Some m)))
          (mesh_points self) None None (temp self) with
  | Some st => (with_history_m (with_states base (Some st)) (Some m'), Ok tt)
  | None => (base, Raise (CollaboratorError "get_states"))
  end.
Proof.
  intros Ht Hr He. apply Nat.eqb_eq in Hr.
  unfold set_history', rebuilt, set_history, _update_h_history_buffer,
    after_transform_rebuild in *.
  monad_unfold.
  destruct (_trainable self && negb (fixed_scaling self));
    rewrite Hr, He;
    cbn [negb with_history_h with_transformer _history_h getattr transformer
         mesh_points temp] in *;
    destruct (get_states _ (mesh_points self) None None (temp self)); cbn [call];
    cbn [with_states transformer]; try rewrite Ht; reflexivity.
Qed.

End SetHistorySupplied.

(** X9.  With a magnetization history supplied (and normalized by the
    transform), [set_history(h, m)] succeeds exactly when [h] is
    1-dimensional, [h] and [m] are not equal tensors and the state function
    accepts the normalized fields.  The shape and the length of [m] play no
    part, and the normalized [m] is stored as it is. *)
Theorem set_history_success_condition
    (get_states predict_batched_state : states_fn)
    (HysteresisTransform_new :
       option Tensor -> option Tensor -> option Tensor -> nat -> nat ->
       HysteresisTransform)
    (self : BaseHysteresis) (h m m' : Tensor) :
  snd (transform
         (transformer (after_transform_rebuild HysteresisTransform_new self h (Some m)))
         h (Some m)) = Some m' ->
  ((exists self',
      set_history get_states predict_batched_state HysteresisTransform_new
        h (Some m) self = (self', Ok tt)) <->
   (rank h = 1%nat /\ equal h m = false /\
    get_states
      (fst (transform
              (transformer (after_transform_rebuild HysteresisTransform_new self h (Some m)))
              h (Some m)))
      (mesh_points self) None None (temp self) <> None)) /\
  (forall self',
     set_history get_states predict_batched_state HysteresisTransform_new
       h (Some m) self = (self', Ok tt) ->
     _history_m self' = Some m').
Proof.
  intros Ht.
  assert (Hcases :
    forall self' r,
      set_history get_states predict_batched_state HysteresisTransform_new
        h (Some m) self = (self', r) ->
      r = Ok tt ->
      rank h = 1%nat /\ equal h m = false).
  { intros self' r H Hr. subst r.
    destruct (Nat.eq_dec (rank h) 1) as [E1|E1].
    - split; [exact E1|]. destruct (equal h m) eqn:E2; [|reflexivity].
      rewrite (@set_history_equal get_states predict_batched_state
                 HysteresisTransform_new self h m E1 E2) in H. discriminate.
    - rewrite (@set_history_h_not_1d get_states predict_batched_state
                 HysteresisTransform_new self h (Some m) E1) in H. discriminate. }
  split; [split|].
  - intros [self' H]. destruct (Hcases _ _ H eq_refl) as [E1 E2].
    split; [exact E1|]. split; [exact E2|].
    rewrite (@set_history_supplied get_states predict_batched_state
               HysteresisTransform_new self h m m' Ht E1 E2) in H.
    cbv zeta in H. destruct (get_states _ _ _ _ _); [discriminate|discriminate].
  - intros (E1 & E2 & Hgs).
    rewrite (@set_history_supplied get_states predict_batched_state
               HysteresisTransform_new self h m m' Ht E1 E2).
    cbv zeta. destruct (get_states _ _ _ _ _); [eauto|contradiction].
  - intros self' H. destruct (Hcases _ _ H eq_refl) as [E1 E2].
    rewrite (@set_history_supplied get_states predict_batched_state
               HysteresisTransform_new self h m m' Ht E1 E2) in H.
    cbv zeta in H. destruct (get_states _ _ _ _ _); inversion H. reflexivity.
Qed.

(** ** Fitting on the data the history was set from *)

Section FitOnHistory.

Variables (get_states predict_batched_state : states_fn).
Variable HysteresisTransform_new :
  option Tensor -> option Tensor -> option Tensor -> nat -> nat -> HysteresisTransform.

Let set_history' := set_history get_states predict_batched_state HysteresisTransform_new.
Let rebuilt := after_transform_rebuild HysteresisTransform_new.
Let fwd := forward get_states predict_batched_state.

(** The model a successful [set_history(h)] builds when the magnetization
    is derived. *)
Lemma set_history_none_success (self self' : BaseHysteresis) (h : Tensor) :
  set_history' h None self = (self', Ok tt) ->
  snd (transform (transformer (rebuilt self h None)) h None) = None ->
  exists st derived,
    let base :=
      with_states
        (with_history_h (rebuilt self h None)
           (Some (fst (transform (transformer (rebuilt self h None)) h None))))
        (Some st) in
    get_states (fst (transform (transformer (rebuilt self h None)) h None))
      (mesh_points self) None None (temp self) = Some st /\
    fwd (with_mode base REGRESSION) (Some h) false = Ok (Some derived) /\
    self' = with_history_m (with_mode (with_mode base REGRESSION) (mode self))
              (Some derived).
Proof.
  unfold set_history', rebuilt, fwd, set_history, _update_h_history_buffer,
    after_transform_rebuild.
  monad_unfold. intros H Hnone.
  destruct (_trainable self && negb (fixed_scaling self));
    cbn [with_history_h with_transformer _history_h getattr transformer
         mesh_points temp mode] in *;
    mcases H; inversion H; subst;
    cbn [with_history_h with_states with_mode with_transformer _history_h getattr
         transformer mesh_points temp mode] in *;
    try congruence;
    repeat match goal with
      | E : Ok _ = Ok _ |- _ => inversion E; subst; clear E
      | E : call _ ?r = Ok _ |- _ => destruct r eqn:?; cbn [call] in E; [|discriminate]
      end;
    eexists _, _; cbv zeta;
    (split; [first [eassumption|reflexivity]|]); split;
    first [eassumption|reflexivity].
Qed.

Lemma predict_same_parameters (self self' : BaseHysteresis) (states h : Tensor) :
  hysterion_density self' = hysterion_density self ->
  scale self' = scale self -> offset self' = offset self -> slope self' = slope self ->
  _predict_normalized_magnetization self' states h
  = _predict_normalized_magnetization self states h.
Proof.
  unfold _predict_normalized_magnetization. intros -> -> -> ->. reflexivity.
Qed.

Lemma fit_on_history (self self' : BaseHysteresis) (h : Tensor) (sc off sl : Q) :
  states_contract get_states ->
  density_ok self ->
  param (scale self) sc -> param (offset self) off -> param (slope self) sl ->
  set_history' h None self = (self', Ok tt) ->
  snd (transform (transformer (rebuilt self h None)) h None) = None ->
  allclose h
    (fst (untransform (transformer self')
            (fst (transform (transformer self') h None)) None)) = Ok true ->
  fwd (with_mode self' FITTING) (Some h) false = Ok (_history_m self') /\
  _history_m self' <> None.
Proof.
  intros Hcontract Hd Hsc Hoff Hsl H Hnone Hclose.
  pose proof (@set_history_transformer get_states predict_batched_state
                HysteresisTransform_new self self' h None (Ok tt) H) as Htr.
  fold rebuilt in Htr. rewrite Htr in Hclose.
  destruct (@set_history_none_success self self' h H Hnone)
    as (st & derived & Egs & Ef & ->).
  cbv zeta in Ef.
  set (nh := fst (transform (transformer (rebuilt self h None)) h None)) in *.
  assert (Hmesh : mesh_points (rebuilt self h None) = mesh_points self)
    by (unfold rebuilt, after_transform_rebuild; destruct (_ && _); reflexivity).
  assert (Hpar : hysterion_density (rebuilt self h None) = hysterion_density self /\
                 scale (rebuilt self h None) = scale self /\
                 offset (rebuilt self h None) = offset self /\
                 slope (rebuilt self h None) = slope self)
    by (unfold rebuilt, after_transform_rebuild; destruct (_ && _); repeat split).
  destruct Hpar as (P1 & P2 & P3 & P4).
  destruct (Hcontract _ _ _ _ _ _ Egs) as (n & Snh & Wnh & Sst & Wst).
  (* what the REGRESSION run went through *)
  unfold fwd, forward, hasattr_history_h in Ef.
  cbn [with_mode with_states with_history_h with_history_m mode _history_h _states
       _history_m transformer mesh_points temp isSome getattr rbind
       require_tensor] in Ef.
  destruct (_check_inside_valid_domain _ h) as [[]|] eqn:Ec; [|discriminate].
  cbn [rbind] in Ef.
  destruct (select_last nh) as [cf|] eqn:Ecf; [|discriminate]. cbn [rbind] in Ef.
  destruct (select_last st) as [cs|] eqn:Ecs; [|discriminate].
  cbn [rbind fst snd] in Ef. fold nh in Ef.
  assert (Htemp : temp (rebuilt self h None) = temp self)
    by (unfold rebuilt, after_transform_rebuild; destruct (_ && _); reflexivity).
  rewrite Hmesh, Htemp, Egs in Ef. cbn [call rbind fst snd] in Ef.
  destruct (_predict_normalized_magnetization _ st nh) as [p|] eqn:Ep; [|discriminate].
  cbn [rbind] in Ef. inversion Ef; subst p.
  match type of Ep with
  | _predict_normalized_magnetization ?s _ _ = _ =>
      rewrite (@predict_same_parameters self s st nh P1 P2 P3 P4) in Ep
  end.
  destruct (@predict_spec self st nh n sc off sl Hd Hsc Hoff Hsl Sst Wst Snh Wnh)
    as (p & Ep' & Sp & _).
  rewrite Ep in Ep'. inversion Ep'; subst p.
  (* the FITTING run on the same input *)
  split; [|discriminate].
  unfold fwd, forward, hasattr_history_h.
  cbn [with_mode with_states with_history_h with_history_m mode _history_h _states
       _history_m transformer mesh_points temp isSome getattr rbind negb
       require_tensor].
  unfold _check_inside_valid_domain, valid_domain in *.
  cbn [with_mode with_states with_history_h with_history_m transformer] in *.
  rewrite Ec. cbn [rbind]. fold nh. rewrite Ecf, Ecs. cbn [rbind fst snd].
  rewrite Snh, Sp, shape_eqb_refl. cbn [negb rbind].
  rewrite Hclose. cbn [negb rbind].
  cbn [fst snd].
  match goal with
  | |- context [_predict_normalized_magnetization ?s st nh] =>
      rewrite (@predict_same_parameters self s st nh P1 P2 P3 P4)
  end.
  rewrite Ep. reflexivity.
Qed.

End FitOnHistory.

(** X10.  Fitting on the training fields gives back the stored
    magnetization: after a successful [set_history(h)] without [m], a call
    of [forward(h)] in FITTING mode returns exactly the stored normalized
    magnetization history, provided the transform maps [h] back to itself
    within the tolerance of [torch.allclose].  The state function is assumed
    to meet its contract and the parameters to have the shapes of the
    constructor. *)
Theorem forward_fitting_returns_stored_magnetization
    (get_states predict_batched_state : states_fn)
    (HysteresisTransform_new :
       option Tensor -> option Tensor -> option Tensor -> nat -> nat ->
       HysteresisTransform)
    (self self' : BaseHysteresis) (h : Tensor) (sc off sl : Q) :
  states_contract get_states ->
  density_ok self ->
  param (scale self) sc -> param (offset self) off -> param (slope self) sl ->
  set_history get_states predict_batched_state HysteresisTransform_new h None self
    = (self', Ok tt) ->
  snd (transform
         (transformer (after_transform_rebuild HysteresisTransform_new self h None))
         h None) = None ->
  allclose h
    (fst (untransform (transformer self')
            (fst (transform (transformer self') h None)) None)) = Ok true ->
  forward get_states predict_batched_state (with_mode self' FITTING) (Some h) false
  = Ok (_history_m self') /\
  _history_m self' <> None.
Proof.
  intros. eapply fit_on_history; eassumption.
Qed.

(** ** [reset_history] on models without a complete history *)

(** X11.  Whatever the model, [reset_history] leaves it without a stored
    field history, with the cached states, the mode, the transform and the
    parameters it had.  The call returns normally exactly when both
    histories were stored.  Without a field history it raises
    [AttributeError] and changes nothing; with a field history but no
    magnetization history it raises [AttributeError] after the field
    history has been deleted. *)
Theorem reset_history_outcome (self self' : BaseHysteresis) (r : result unit) :
  reset_history self = (self', r) ->
  _history_h self' = None /\ _states self' = _states self /\
  same_configuration self self' /\
  (r = Ok tt <-> _history_h self <> None /\ _history_m self <> None) /\
  (_history_h self = None ->
   r = Raise (AttributeError "_history_h") /\ self' = self) /\
  (_history_h self <> None -> _history_m self = None ->
   r = Raise (AttributeError "_history_m") /\ self' = with_history_h self None).
Proof.
  unfold reset_history, same_configuration. monad_unfold.
  destruct (_history_h self) as [h|] eqn:Hh;
    cbn [with_history_h _history_m]; [destruct (_history_m self) as [m|] eqn:Hm|];
    intros H; inversion H; subst; cbn [with_history_h with_history_m _history_h _states];
    (split; [first [reflexivity|exact Hh]|]); repeat split;
    try reflexivity; try discriminate; try congruence;
    try (intros; exfalso; congruence);
    try (intros [? ?]; congruence).
Qed.

(** ** The prediction as a weighted average *)

Lemma Qsum_map2_scale (c : Q) (d row : list Q) :
  Qsum (map2 Qmult (map (Qmult c) d) row) == c * Qsum (map2 Qmult d row).
Proof.
  revert row. induction d as [|a d IH]; intros [|s row]; simpl; try ring.
  rewrite IH. ring.
Qed.

Lemma Qsum_scale (c : Q) (d : list Q) : Qsum (map (Qmult c) d) == c * Qsum d.
Proof. induction d as [|a d IH]; simpl; [ring|]. rewrite IH. ring. Qed.

Lemma weighted_sum_bounds (d row : list Q) (lo hi : Q) :
  length row = length d ->
  Forall (fun w => 0 <= w) d ->
  Forall (fun s => lo <= s /\ s <= hi) row ->
  lo * Qsum d <= Qsum (map2 Qmult d row) /\ Qsum (map2 Qmult d row) <= hi * Qsum d.
Proof.
  revert row. induction d as [|w d IH]; intros [|s row] Hlen Hd Hrow;
    simpl in *; try discriminate.
  - split; ring_simplify; apply Qle_refl.
  - inversion Hd as [|? ? Hw Hd']; inversion Hrow as [|? ? [Hlo Hhi] Hrow']; subst.
    destruct (IH row) as [IH1 IH2]; [lia|assumption|assumption|].
    split.
    + setoid_replace (lo * (w + Qsum d)) with (w * lo + lo * Qsum d) by ring.
      apply Qplus_le_compat; [|exact IH1].
      rewrite (Qmult_comm w lo), (Qmult_comm w s).
      apply Qmult_le_compat_r; assumption.
    + setoid_replace (hi * (w + Qsum d)) with (w * hi + hi * Qsum d) by ring.
      apply Qplus_le_compat; [|exact IH2].
      rewrite (Qmult_comm w hi), (Qmult_comm w s).
      apply Qmult_le_compat_r; assumption.
Qed.

Lemma weighted_average_bounds (d row : list Q) (lo hi : Q) :
  length row = length d ->
  Forall (fun w => 0 <= w) d -> 0 < Qsum d ->
  Forall (fun s => lo <= s /\ s <= hi) row ->
  lo <= weighted_average d row /\ weighted_average d row <= hi.
Proof.
  intros Hlen Hd Hpos Hrow.
  destruct (@weighted_sum_bounds d row lo hi Hlen Hd Hrow) as [H1 H2].
  unfold weighted_average. split.
  - apply Qle_shift_div_l; assumption.
  - apply Qle_shift_div_r; assumption.
Qed.

Lemma chunks_Forall (P : Q -> Prop) (size count : nat) (d : list Q) :
  Forall P d -> Forall (Forall P) (chunks size count d).
Proof.
  revert d. induction count as [|c IH]; intros d Hd; simpl; constructor;
    rewrite <- (firstn_skipn size d) in Hd; apply Forall_app in Hd;
    destruct Hd as [H1 H2]; [exact H1|apply IH; exact H2].
Qed.

Lemma m_norm_bounds (sc off sl lo hi : Q) (d row : list Q) (hv : Q) :
  length row = length d ->
  Forall (fun w => 0 <= w) d -> 0 < Qsum d -> 0 <= sc ->
  Forall (fun s => lo <= s /\ s <= hi) row ->
  sc * lo + off + sl * hv <= m_norm sc off sl d row hv /\
  m_norm sc off sl d row hv <= sc * hi + off + sl * hv.
Proof.
  intros Hlen Hd Hpos Hsc Hrow.
  destruct (@weighted_average_bounds d row lo hi Hlen Hd Hpos Hrow) as [H1 H2].
  unfold m_norm. split.
  - repeat apply Qplus_le_compat; try apply Qle_refl.
    rewrite (Qmult_comm sc lo), (Qmult_comm sc (weighted_average d row)).
    apply Qmult_le_compat_r; assumption.
  - repeat apply Qplus_le_compat; try apply Qle_refl.
    rewrite (Qmult_comm sc hi), (Qmult_comm sc (weighted_average d row)).
    apply Qmult_le_compat_r; assumption.
Qed.

Lemma rows_bounds (sc off sl lo hi : Q) (d : list Q) (rows : list (list Q))
    (hs ms : list Q) :
  Forall (fun w => 0 <= w) d -> 0 < Qsum d -> 0 <= sc ->
  Forall (fun row => length row = length d) rows ->
  Forall (Forall (fun s => lo <= s /\ s <= hi)) rows ->
  length rows = length hs ->
  Forall2 Qeq ms (map2 (m_norm sc off sl d) rows hs) ->
  Forall2 (fun mi hv => sc * lo + off + sl * hv <= mi /\
                        mi <= sc * hi + off + sl * hv) ms hs.
Proof.
  intros Hd Hpos Hsc Hlens Hrows. revert hs ms.
  induction rows as [|row rows IH]; intros [|hv hs] ms Hlen Hm;
    simpl in *; try discriminate.
  - inversion Hm. constructor.
  - inversion Hm as [|mi ? ms' ? Hmi Hms]; subst.
    inversion Hlens; inversion Hrows; subst.
    constructor.
    + rewrite Hmi. apply m_norm_bounds; assumption.
    + apply IH; try assumption. lia.
Qed.

(** X12.  The prediction stays in the band the hysteron states span: with
    non-negative densities of positive total, a non-negative scale and all
    states between [lo] and [hi], every predicted value lies between
    scale * lo + offset + slope * h and scale * hi + offset + slope * h for
    its normalized field [h]. *)
Theorem prediction_bounds
    (self : BaseHysteresis) (states h : Tensor) (n : nat) (sc off sl lo hi : Q) :
  density_ok self ->
  param (scale self) sc -> param (offset self) off -> param (slope self) sl ->
  shape states = [n; length (mesh_points self)] -> wf states ->
  shape h = [n] -> wf h ->
  Forall (fun w => 0 <= w) (data (hysterion_density self)) ->
  0 < Qsum (data (hysterion_density self)) ->
  0 <= sc ->
  Forall (fun s => lo <= s /\ s <= hi) (data states) ->
  exists m,
    _predict_normalized_magnetization self states h = Ok m /\
    Forall2 (fun mi hv => sc * lo + off + sl * hv <= mi /\
                          mi <= sc * hi + off + sl * hv) (data m) (data h).
Proof.
  intros Hd Hsc Hoff Hsl Sst Wst Sh Wh Hpos Hsum Hsc0 Hrange.
  destruct (@predict_spec self states h n sc off sl Hd Hsc Hoff Hsl Sst Wst Sh Wh)
    as (m & Em & _ & _ & Hf).
  exists m. split; [exact Em|].
  destruct Hd as [Sd Wd].
  assert (Ld : length (data (hysterion_density self)) = length (mesh_points self))
    by (red in Wd; rewrite Wd, Sd, numel_vec; reflexivity).
  assert (Ls : length (data states) = (n * length (mesh_points self))%nat)
    by (red in Wst; rewrite Wst, Sst; simpl; lia).
  assert (Lh : length (data h) = n)
    by (red in Wh; rewrite Wh, Sh, numel_vec; reflexivity).
  eapply rows_bounds; try eassumption.
  - rewrite Ld. apply chunks_Forall_length. exact Ls.
  - apply chunks_Forall. exact Hrange.
  - rewrite chunks_length. lia.
Qed.

Lemma weighted_average_scale (c : Q) (d row : list Q) :
  ~ c == 0 -> ~ Qsum d == 0 ->
  weighted_average (map (Qmult c) d) row == weighted_average d row.
Proof.
  intros Hc Hd. unfold weighted_average.
  rewrite Qsum_map2_scale, Qsum_scale. field. split; assumption.
Qed.

Lemma rows_scale (sc off sl c : Q) (d : list Q) (rows : list (list Q)) (hs : list Q) :
  ~ c == 0 -> ~ Qsum d == 0 ->
  Forall2 Qeq (map2 (m_norm sc off sl (map (Qmult c) d)) rows hs)
              (map2 (m_norm sc off sl d) rows hs).
Proof.
  intros Hc Hd. revert hs. induction rows as [|row rows IH]; intros [|hv hs];
    simpl; constructor; [|apply IH].
  unfold m_norm. rewrite weighted_average_scale by assumption. reflexivity.
Qed.

Lemma Forall2_Qeq_trans (a b c : list Q) :
  Forall2 Qeq a b -> Forall2 Qeq b c -> Forall2 Qeq a c.
Proof.
  intros Hab. revert c. induction Hab as [|x y a b Hxy _ IH]; intros c Hbc;
    inversion Hbc; subst; constructor.
  - etransitivity; eassumption.
  - apply IH. assumption.
Qed.

Lemma Forall2_Qeq_sym (a b : list Q) : Forall2 Qeq a b -> Forall2 Qeq b a.
Proof.
  induction 1; constructor; [symmetry|]; assumption.
Qed.

(** X13.  Only the relative hysteron densities matter: two models that
    differ in their density by a common non-zero factor, the total density
    not being zero, predict the same values from the same states and
    fields. *)
Theorem prediction_invariant_under_density_scaling
    (self self' : BaseHysteresis) (states h : Tensor) (n : nat) (sc off sl c : Q) :
  density_ok self ->
  param (scale self) sc -> param (offset self) off -> param (slope self) sl ->
  mesh_points self' = mesh_points self ->
  scale self' = scale self -> offset self' = offset self -> slope self' = slope self ->
  hysterion_density self'
  = mkTensor (shape (hysterion_density self))
      (map (Qmult c) (data (hysterion_density self))) ->
  ~ c == 0 -> ~ Qsum (data (hysterion_density self)) == 0 ->
  shape states = [n; length (mesh_points self)] -> wf states ->
  shape h = [n] -> wf h ->
  exists m m',
    _predict_normalized_magnetization self states h = Ok m /\
    _predict_normalized_magnetization self' states h = Ok m' /\
    shape m' = shape m /\ Forall2 Qeq (data m') (data m).
Proof.
  intros Hd Hsc Hoff Hsl Hmesh Esc Eoff Esl Edens Hc Hsum Sst Wst Sh Wh.
  destruct (@predict_spec self states h n sc off sl Hd Hsc Hoff Hsl Sst Wst Sh Wh)
    as (m & Em & Sm & _ & Hf).
  assert (Hd' : density_ok self').
  { destruct Hd as [Sd Wd]. split.
    - rewrite Edens, Hmesh. exact Sd.
    - rewrite Edens. red. cbn [shape data]. rewrite length_map. exact Wd. }
  rewrite <- Hmesh in Sst.
  rewrite <- Esc in Hsc. rewrite <- Eoff in Hoff. rewrite <- Esl in Hsl.
  destruct (@predict_spec self' states h n sc off sl Hd' Hsc Hoff Hsl Sst Wst Sh Wh)
    as (m' & Em' & Sm' & _ & Hf').
  exists m, m'. split; [exact Em|]. split; [exact Em'|].
  split; [congruence|].
  rewrite Edens, Hmesh in Hf'. cbn [data] in Hf'.
  eapply Forall2_Qeq_trans; [exact Hf'|].
  eapply Forall2_Qeq_trans; [apply rows_scale; assumption|].
  apply Forall2_Qeq_sym. exact Hf.
Qed.

(** ** Negative saturation *)

Lemma Qsum_all_down (d row : list Q) :
  length row = length d -> Forall (fun s => s == -1) row ->
  Qsum (map2 Qmult d row) == - Qsum d.
Proof.
  revert row. induction d as [|w d IH]; intros [|s row] Hlen Hrow;
    simpl in *; try discriminate.
  - ring.
  - inversion Hrow as [|? ? Hs Hrow']; subst.
    rewrite IH by (try lia; assumption). rewrite Hs. ring.
Qed.

(** X14.  [get_negative_saturation] hands to [untransform], at normalized
    field 0, the one-element tensor offset - scale; this is the value
    [_predict_normalized_magnetization] gives at field 0 when every hysteron
    state is -1, whatever the slope. *)
Theorem negative_saturation_is_all_down_prediction
    (self : BaseHysteresis) (sc off sl : Q) :
  density_ok self ->
  param (scale self) sc -> param (offset self) off -> param (slope self) sl ->
  ~ Qsum (data (hysterion_density self)) == 0 ->
  get_negative_saturation self
  = match snd (untransform (transformer self) (zeros 1)
                 (Some (mkTensor [1%nat] [- sc + off]))) with
    | Some real_m => Ok real_m
    | None => Raise (Exc.none_type "to")
    end /\
  forall states,
    shape states = [1%nat; length (mesh_points self)] -> wf states ->
    Forall (fun s => s == -1) (data states) ->
    exists p,
      _predict_normalized_magnetization self states (zeros 1) = Ok p /\
      shape p = [1%nat] /\ Forall2 Qeq (data p) [- sc + off].
Proof.
  intros Hd Hsc Hoff Hsl Hsum. split.
  - unfold get_negative_saturation, add. rewrite Hsc, Hoff.
    unfold neg. cbn [shape data map].
    rewrite binop_same by reflexivity. reflexivity.
  - intros states Sst Wst Hdown.
    destruct (@predict_spec self states (zeros 1) 1 sc off sl Hd Hsc Hoff Hsl Sst Wst
                eq_refl eq_refl) as (p & Ep & Sp & _ & Hf).
    exists p. split; [exact Ep|]. split; [exact Sp|].
    destruct Hd as [Sd Wd].
    assert (Ld : length (data (hysterion_density self)) = length (mesh_points self))
      by (red in Wd; rewrite Wd, Sd, numel_vec; reflexivity).
    assert (Ls : length (data states) = length (mesh_points self))
      by (red in Wst; rewrite Wst, Sst; simpl; lia).
    cbn [chunks zeros data repeat map2] in Hf.
    rewrite firstn_all2 in Hf by lia.
    inversion Hf as [|x y xs ys Hxy Hrest E1 E2]; subst.
    inversion Hrest; subst. constructor; [|constructor].
    rewrite Hxy. unfold m_norm, weighted_average.
    rewrite Qsum_all_down by (try congruence; assumption).
    field. exact Hsum.
Qed.

(** ** The loops of [ExactHybridGP] over its hysteresis models *)

Lemma enumerate_models_length (body : nat -> M unit) (idx : nat)
    (models models' : list BaseHysteresis) (r : result unit) :
  enumerate_models body idx models = (models', r) -> length models' = length models.
Proof.
  revert idx models' r. induction models as [|m rest IH]; intros idx models' r H;
    simpl in H.
  - inversion H. reflexivity.
  - destruct (body idx m) as [m' [[]|e]].
    + destruct (enumerate_models body (S idx) rest) as [rest' r'] eqn:E.
      inversion H; subst. simpl. f_equal. eapply IH. exact E.
    + inversion H; subst. reflexivity.
Qed.

(** A loop that returns has run its body on every model, in order. *)
Lemma enumerate_models_ok (body : nat -> M unit) (idx : nat)
    (models models' : list BaseHysteresis) :
  enumerate_models body idx models = (models', Ok tt) <->
  length models' = length models /\
  forall i m, nth_error models i = Some m ->
    exists m', body (idx + i)%nat m = (m', Ok tt) /\ nth_error models' i = Some m'.
Proof.
  revert idx models'. induction models as [|m rest IH]; intros idx models'; simpl.
  - split.
    + intros H. inversion H. split; [reflexivity|]. intros [|i] m0 Hm; discriminate.
    + intros [Hlen _]. destruct models'; [reflexivity|discriminate].
  - split.
    + intros H. destruct (body idx m) as [m' [[]|e]] eqn:Eb.
      * destruct (enumerate_models body (S idx) rest) as [rest' r'] eqn:E.
        inversion H; subst. apply IH in E. destruct E as [Hlen Hall].
        split; [simpl; congruence|].
        intros [|i] m0 Hm; simpl in Hm.
        -- inversion Hm; subst. rewrite Nat.add_0_r. exists m'. auto.
        -- destruct (Hall i m0 Hm) as (m0' & Hb & Hn).
           exists m0'. rewrite Nat.add_succ_r. auto.
      * inversion H.
    + intros [Hlen Hall]. destruct models' as [|m' rest']; [discriminate|].
      destruct (Hall 0%nat m eq_refl) as (m0 & Hb & Hn).
      rewrite Nat.add_0_r in Hb. simpl in Hn. inversion Hn; subst m0.
      rewrite Hb.
      assert (E : enumerate_models body (S idx) rest = (rest', Ok tt)).
      { apply IH. split; [simpl in Hlen; lia|].
        intros i mi Hi. destruct (Hall (S i) mi Hi) as (mi' & Hbi & Hni).
        rewrite Nat.add_succ_r in Hbi. exists mi'. auto. }
      rewrite E. reflexivity.
Qed.

(** A loop that raises stopped at the first model whose body raised: the
    models before it went through the body, the models after it are
    untouched. *)
Lemma enumerate_models_raise (body : nat -> M unit) (idx : nat)
    (models models' : list BaseHysteresis) (e : PyExc) :
  enumerate_models body idx models = (models', Raise e) ->
  exists k m m',
    nth_error models k = Some m /\
    body (idx + k)%nat m = (m', Raise e) /\ nth_error models' k = Some m' /\
    (forall i mi, (i < k)%nat -> nth_error models i = Some mi ->
       exists mi', body (idx + i)%nat mi = (mi', Ok tt) /\
                   nth_error models' i = Some mi') /\
    (forall i, (k < i)%nat -> nth_error models' i = nth_error models i).
Proof.
  revert idx models'. induction models as [|m rest IH]; intros idx models' H;
    simpl in H.
  - inversion H.
  - destruct (body idx m) as [m' [[]|e0]] eqn:Eb.
    + destruct (enumerate_models body (S idx) rest) as [rest' r'] eqn:E.
      inversion H; subst.
      destruct (IH _ _ E) as (k & mk & mk' & Hk & Hb & Hk' & Hbefore & Hafter).
      exists (S k), mk, mk'. rewrite Nat.add_succ_r. repeat split; try assumption.
      * intros [|i] mi Hi Hn; simpl in Hn.
        -- inversion Hn; subst. rewrite Nat.add_0_r. exists m'. auto.
        -- destruct (Hbefore i mi ltac:(lia) Hn) as (mi' & Hbi & Hni).
           exists mi'. rewrite Nat.add_succ_r. auto.
      * intros [|i] Hi; [lia|]. simpl. apply Hafter. lia.
    + inversion H; subst. exists 0%nat, m, m'. rewrite Nat.add_0_r.
      repeat split; try assumption; try reflexivity.
      * intros i mi Hi. lia.
      * intros [|i] Hi; [lia|]. reflexivity.
Qed.

Lemma select_column_ok (x column : Tensor) (idx : nat) :
  select_column x idx = Ok column ->
  exists n c rest, shape x = n :: c :: rest /\ (idx < c)%nat /\ shape column = n :: rest.
Proof.
  unfold select_column. destruct (shape x) as [|n [|c rest]]; try discriminate.
  destruct (idx <? c)%nat eqn:E; [|discriminate].
  apply Nat.ltb_lt in E. intros H. inversion H. exists n, c, rest. auto.
Qed.

Section HybridLoops.

Variables (get_states predict_batched_state : states_fn).
Variable HysteresisTransform_new :
  option Tensor -> option Tensor -> option Tensor -> nat -> nat -> HysteresisTransform.

Lemma apply_fields_body (x : Tensor) (idx : nat) (m m' : BaseHysteresis)
    (r : result unit) :
  (column <- lift (select_column x idx) ;; apply_field get_states column) m = (m', r) ->
  (exists column, select_column x idx = Ok column /\
                  apply_field get_states column m = (m', r)) \/
  (exists e, select_column x idx = Raise e /\ r = Raise e /\ m' = m).
Proof.
  unfold bind, lift. destruct (select_column x idx) as [column|e]; intros H.
  - left. eauto.
  - right. inversion H. eauto.
Qed.

Lemma set_train_data_body (x : Tensor) (idx : nat) (m m' : BaseHysteresis)
    (r : result unit) :
  (column <- lift (select_column x idx) ;;
   set_history get_states predict_batched_state HysteresisTransform_new column None) m
  = (m', r) ->
  (exists column, select_column x idx = Ok column /\
     set_history get_states predict_batched_state HysteresisTransform_new column None m
     = (m', r)) \/
  (exists e, select_column x idx = Raise e /\ r = Raise e /\ m' = m).
Proof.
  unfold bind, lift. destruct (select_column x idx) as [column|e]; intros H.
  - left. eauto.
  - right. inversion H. eauto.
Qed.

End HybridLoops.

(** X15.  [ExactHybridGP.apply_fields(x)] returns normally exactly when
    [apply_field] succeeds on every model with its own column of [x]: model
    number [i] ends as [apply_field(x[:, i])] leaves it.  [x] then has at
    least as many columns as there are models; further columns are never
    read. *)
Theorem apply_fields_success
    (get_states : states_fn) (x : Tensor) (models models' : list BaseHysteresis) :
  (apply_fields get_states x models = (models', Ok tt) <->
   length models' = length models /\
   forall i m, nth_error models i = Some m ->
     exists column m',
       select_column x i = Ok column /\
       apply_field get_states column m = (m', Ok tt) /\
       nth_error models' i = Some m') /\
  (apply_fields get_states x models = (models', Ok tt) -> models <> [] ->
   exists n c rest, shape x = n :: c :: rest /\ (length models <= c)%nat).
Proof.
  unfold apply_fields.
  assert (Hiff :
    enumerate_models
      (fun idx => column <- lift (select_column x idx) ;; apply_field get_states column)
      0 models = (models', Ok tt) <->
    length models' = length models /\
    forall i m, nth_error models i = Some m ->
      exists column m',
        select_column x i = Ok column /\
        apply_field get_states column m = (m', Ok tt) /\
        nth_error models' i = Some m').
  { rewrite enumerate_models_ok. cbn [Nat.add]. split; intros [Hlen Hall];
      (split; [exact Hlen|]); intros i m Hi.
    - destruct (Hall i m Hi) as (m' & Hb & Hn).
      apply apply_fields_body in Hb.
      destruct Hb as [(column & Hc & Ha)|(e & _ & Hr & _)]; [|discriminate].
      exists column, m'. auto.
    - destruct (Hall i m Hi) as (column & m' & Hc & Ha & Hn).
      exists m'. split; [|exact Hn]. unfold bind, lift. rewrite Hc. exact Ha. }
  split; [exact Hiff|].
  intros H Hne. apply Hiff in H. destruct H as [_ Hall].
  destruct (nth_error models (length models - 1)) as [m|] eqn:Hlast.
  - destruct (Hall _ _ Hlast) as (column & m' & Hc & _).
    destruct (select_column_ok _ _ Hc) as (n & c & rest & Sx & Hlt & _).
    exists n, c, rest. split; [exact Sx|lia].
  - apply nth_error_None in Hlast. destruct models; [contradiction|simpl in Hlast; lia].
Qed.

(** X16.  [ExactHybridGP.apply_fields(x)] is not undone when it fails: the
    loop stops at the first model [k] that has no column in [x] or whose
    [apply_field] raises; the models before [k] keep their extended
    histories, the models after [k] are untouched, and model [k] itself is
    unchanged unless its state function failed. *)
Theorem apply_fields_failure
    (get_states : states_fn) (x : Tensor) (models models' : list BaseHysteresis)
    (e : PyExc) :
  apply_fields get_states x models = (models', Raise e) ->
  length models' = length models /\
  exists k mk mk',
    nth_error models k = Some mk /\ nth_error models' k = Some mk' /\
    (select_column x k = Raise e \/
     exists column, select_column x k = Ok column /\
                    apply_field get_states column mk = (mk', Raise e)) /\
    (e <> CollaboratorError "get_states" -> mk' = mk) /\
    (forall i mi, (i < k)%nat -> nth_error models i = Some mi ->
       exists column mi',
         select_column x i = Ok column /\
         apply_field get_states column mi = (mi', Ok tt) /\
         nth_error models' i = Some mi') /\
    (forall i, (k < i)%nat -> nth_error models' i = nth_error models i).
Proof.
  unfold apply_fields. intros H.
  split; [exact (enumerate_models_length _ _ _ H)|].
  apply enumerate_models_raise in H.
  destruct H as (k & mk & mk' & Hk & Hb & Hk' & Hbefore & Hafter).
  cbn [Nat.add] in *.
  exists k, mk, mk'. split; [exact Hk|]. split; [exact Hk'|].
  apply apply_fields_body in Hb.
  split; [|split; [|split; [|exact Hafter]]].
  - destruct Hb as [(column & Hc & Ha)|(e0 & Hc & Hr & _)].
    + right. eauto.
    + left. inversion Hr; subst. exact Hc.
  - intros Hne. destruct Hb as [(column & Hc & Ha)|(e0 & _ & _ & Hm)]; [|exact Hm].
    destruct (apply_field_failure get_states mk column Ha) as [[_ Hs]|[He _]];
      [exact Hs|contradiction].
  - intros i mi Hi Hn. destruct (Hbefore i mi Hi Hn) as (mi' & Hbi & Hni).
    apply apply_fields_body in Hbi.
    destruct Hbi as [(column & Hc & Ha)|(e0 & _ & Hr & _)]; [|discriminate].
    exists column, mi'. auto.
Qed.

(** X17.  When [ExactHybridGP._set_hysteresis_model_train_data(train_h)]
    returns, every model is in the mode it was in, its stored field history
    is its own column of [train_h] normalized by its transform, and its
    cached states are the state function run on that history. *)
Theorem set_train_data_success
    (get_states predict_batched_state : states_fn)
    (HysteresisTransform_new :
       option Tensor -> option Tensor -> option Tensor -> nat -> nat ->
       HysteresisTransform)
    (train_h : Tensor) (models models' : list BaseHysteresis) :
  _set_hysteresis_model_train_data get_states predict_batched_state
    HysteresisTransform_new train_h models = (models', Ok tt) ->
  length models' = length models /\
  forall i m, nth_error models i = Some m ->
    exists column m',
      nth_error models' i = Some m' /\
      select_column train_h i = Ok column /\
      mode m' = mode m /\
      recomputed get_states m' (fst (transform (transformer m') column None)).
Proof.
  unfold _set_hysteresis_model_train_data. intros H.
  apply enumerate_models_ok in H. destruct H as [Hlen Hall].
  split; [exact Hlen|]. intros i m Hi.
  destruct (Hall i m Hi) as (m' & Hb & Hn). cbn [Nat.add] in Hb.
  apply set_train_data_body in Hb.
  destruct Hb as [(column & Hc & Hs)|(e & _ & Hr & _)]; [|discriminate].
  exists column, m'. split; [exact Hn|]. split; [exact Hc|]. split.
  - eapply set_history_mode. exact Hs.
  - rewrite (@set_history_transformer get_states predict_batched_state
               HysteresisTransform_new m m' column None (Ok tt) Hs).
    eapply set_history_recomputes. exact Hs.
Qed.

(** ** The further properties at explicit inputs *)

Lemma forward_return_real_witness :
  exists norm_h,
    Sample.forward (Sample.trained FITTING) (Some Sample.h3) true
    = Ok (snd (untransform (transformer (Sample.trained FITTING)) norm_h
                 (Some (mkTensor [3%nat] [0 # 192; 160 # 192; 544 # 384]%Q)))).
Proof.
  destruct (proj1 (proj2
    (forward_return_real Sample.get_states Sample.predict_batched_state
       (Sample.trained FITTING) (Some Sample.h3)))
    (mkTensor [3%nat] [0 # 192; 160 # 192; 544 # 384]%Q)
    ltac:(vm_compute; reflexivity)) as (states & norm_h & _ & _ & H).
  exists norm_h. exact H.
Defined.

Lemma forward_current_ignores_input_witness :
  mode (Sample.trained CURRENT) = CURRENT /\
  Sample.forward (Sample.trained CURRENT) (Some Sample.h3) false
  = Sample.forward (Sample.trained CURRENT) None false.
Proof.
  split; [reflexivity|].
  refine (proj1 (@forward_current_ignores_input Sample.get_states
                   Sample.predict_batched_state (Sample.trained CURRENT) Sample.h3
                   false eq_refl) _).
  vm_compute; reflexivity.
Defined.

Lemma forward_empty_history_witness :
  _history_h Sample.emptied = Some (Sample.vec []) /\
  exists msg,
    Sample.forward Sample.emptied (Some Sample.h3) false = Raise (IndexError msg).
Proof.
  split; [vm_compute; reflexivity|].
  refine (@forward_empty_history Sample.get_states Sample.predict_batched_state
            Sample.emptied (Sample.vec []) (Some Sample.h3) false _ eq_refl _);
    vm_compute; reflexivity.
Defined.

Lemma apply_field_appends_witness :
  exists h,
    _history_h Sample.extended = Some h /\ shape h = [4%nat] /\
    _history_m Sample.extended = _history_m (Sample.trained FITTING).
Proof.
  destruct (@apply_field_appends Sample.get_states (Sample.trained FITTING)
              Sample.extended (mkTensor [] [4 # 5]%Q)
              (mkTensor [3%nat] [0 # 2; 1 # 2; 3 # 4]%Q) 3 1
              ltac:(vm_compute; reflexivity) eq_refl eq_refl eq_refl eq_refl
              ltac:(vm_compute; reflexivity))
    as ((h & Hh & Sh & _) & Hm & _).
  exists h. auto.
Defined.

Lemma apply_field_failure_effect_witness :
  Sample.outcome (Sample.apply_field (Sample.vec [2]%Q)) (Sample.trained FITTING)
  = Raise Exc.outside_domain /\
  Sample.run (Sample.apply_field (Sample.vec [2]%Q)) (Sample.trained FITTING)
  = Sample.trained FITTING.
Proof.
  split; [vm_compute; reflexivity|].
  refine (proj1 (@apply_field_failure_effect Sample.get_states
                   (Sample.trained FITTING)
                   (Sample.run (Sample.apply_field (Sample.vec [2]%Q))
                      (Sample.trained FITTING))
                   (Sample.vec [2]%Q) Exc.outside_domain _) _).
  - vm_compute; reflexivity.
  - discriminate.
Defined.

Lemma fitting_fails_after_apply_field_witness :
  Sample.forward Sample.extended (Some Sample.h3) false
  = Raise Exc.history_shape_mismatch.
Proof.
  refine (@fitting_fails_after_apply_field Sample.get_states
            Sample.predict_batched_state (Sample.trained FITTING) Sample.extended
            (mkTensor [] [4 # 5]%Q) (mkTensor [3%nat] [0 # 2; 1 # 2; 3 # 4]%Q)
            Sample.m3 3 0 sample_get_states_contract eq_refl _ eq_refl eq_refl
            _ eq_refl eq_refl eq_refl _ Sample.h3 false _);
    vm_compute; reflexivity.
Defined.

Lemma set_history_rebuilds_transform_first_witness :
  Sample.outcome (Sample.set_history Sample.m3_column None) (Sample.fresh FITTING)
  = Raise Exc.history_h_not_1d /\
  transformer (Sample.run (Sample.set_history Sample.m3_column None)
                 (Sample.fresh FITTING))
  = Sample.HysteresisTransform_new (Some Sample.m3_column) None None 1 3000.
Proof.
  split; [vm_compute; reflexivity|].
  refine (proj1 (@set_history_rebuilds_transform_first Sample.get_states
                   Sample.predict_batched_state Sample.HysteresisTransform_new
                   (Sample.fresh FITTING)
                   (Sample.run (Sample.set_history Sample.m3_column None)
                      (Sample.fresh FITTING))
                   Sample.m3_column None (Raise Exc.history_h_not_1d) _) _).
  - vm_compute; reflexivity.
  - split; reflexivity.
Defined.

Lemma set_history_failure_leaves_regression_witness :
  mode (Sample.fresh FUTURE) = FUTURE /\
  Sample.outcome (Sample.set_history (Sample.vec [2]%Q) None) (Sample.fresh FUTURE)
  = Raise Exc.outside_domain /\
  mode (Sample.run (Sample.set_history (Sample.vec [2]%Q) None) (Sample.fresh FUTURE))
  = REGRESSION.
Proof.
  split; [reflexivity|]. split; [vm_compute; reflexivity|].
  refine (proj1 (@set_history_failure_leaves_regression Sample.get_states
                   Sample.predict_batched_state Sample.HysteresisTransform_new
                   (Sample.fresh FUTURE)
                   (Sample.run (Sample.set_history (Sample.vec [2]%Q) None)
                      (Sample.fresh FUTURE))
                   (Sample.vec [2]%Q) Exc.outside_domain _ _ _)).
  - vm_compute; reflexivity.
  - discriminate.
  - discriminate.
Defined.

Lemma set_history_success_condition_witness :
  exists self',
    Sample.set_history Sample.h3 (Some (Sample.vec [1; 2]%Q)) (Sample.fresh FITTING)
    = (self', Ok tt) /\
    _history_m self' = Some (Sample.vec [1; 2]%Q).
Proof.
  pose proof (@set_history_success_condition Sample.get_states
                Sample.predict_batched_state Sample.HysteresisTransform_new
                (Sample.fresh FITTING) Sample.h3 (Sample.vec [1; 2]%Q)
                (Sample.vec [1; 2]%Q) eq_refl) as [Hiff Hm].
  destruct (proj2 Hiff) as [self' H].
  - split; [reflexivity|]. split; [reflexivity|]. vm_compute. discriminate.
  - exists self'. split; [exact H|]. exact (Hm self' H).
Defined.

Lemma forward_fitting_returns_stored_magnetization_witness :
  Sample.forward
    (with_mode (Sample.run (Sample.set_history Sample.h3 None) (Sample.fresh FUTURE))
       FITTING)
    (Some Sample.h3) false
  = Ok (_history_m (Sample.run (Sample.set_history Sample.h3 None)
                      (Sample.fresh FUTURE))).
Proof.
  refine (proj1 (@forward_fitting_returns_stored_magnetization Sample.get_states
                   Sample.predict_batched_state Sample.HysteresisTransform_new
                   (Sample.fresh FUTURE)
                   (Sample.run (Sample.set_history Sample.h3 None) (Sample.fresh FUTURE))
                   Sample.h3 1 0 1 sample_get_states_contract _ eq_refl eq_refl eq_refl
                   _ eq_refl _)).
  - split; reflexivity.
  - vm_compute; reflexivity.
  - vm_compute; reflexivity.
Defined.

Lemma reset_history_outcome_witness :
  _history_h Sample.field_only <> None /\
  _history_m Sample.field_only = None /\
  Sample.outcome reset_history Sample.field_only = Raise (AttributeError "_history_m") /\
  _history_h (Sample.run reset_history Sample.field_only) = None.
Proof.
  assert (Hh : _history_h Sample.field_only <> None) by (vm_compute; discriminate).
  assert (Hm : _history_m Sample.field_only = None) by (vm_compute; reflexivity).
  split; [exact Hh|]. split; [exact Hm|].
  pose proof (@reset_history_outcome Sample.field_only
                (Sample.run reset_history Sample.field_only)
                (Sample.outcome reset_history Sample.field_only)
                ltac:(vm_compute; reflexivity)) as (H1 & _ & _ & _ & _ & H6).
  split; [exact (proj1 (H6 Hh Hm))|exact H1].
Defined.

Ltac qfact :=
  first [ reflexivity
        | vm_compute;
          first [ reflexivity | discriminate
                | let H := fresh in intro H; discriminate H ] ].

Lemma prediction_bounds_witness :
  exists m,
    _predict_normalized_magnetization (Sample.trained FITTING)
      (mkTensor [3%nat; 3%nat] [0; 0; 0; 1; 0; 0; 1; 1; 0]%Q)
      (mkTensor [3%nat] [0 # 2; 1 # 2; 3 # 4]%Q) = Ok m /\
    Forall2 (fun mi hv => 1 * 0 + 0 + 1 * hv <= mi /\ mi <= 1 * 1 + 0 + 1 * hv)
      (data m) [0 # 2; 1 # 2; 3 # 4]%Q.
Proof.
  refine (@prediction_bounds (Sample.trained FITTING)
            (mkTensor [3%nat; 3%nat] [0; 0; 0; 1; 0; 0; 1; 1; 0]%Q)
            (mkTensor [3%nat] [0 # 2; 1 # 2; 3 # 4]%Q) 3 1 0 1 0 1
            _ eq_refl eq_refl eq_refl eq_refl eq_refl eq_refl eq_refl _ _ _ _).
  - split; reflexivity.
  - repeat constructor; qfact.
  - qfact.
  - qfact.
  - repeat (constructor || split); qfact.
Defined.

Lemma prediction_invariant_under_density_scaling_witness :
  exists m m',
    _predict_normalized_magnetization (Sample.fresh FITTING)
      (mkTensor [1%nat; 3%nat] [1; 0; 1]%Q) (Sample.vec [1 # 2]%Q) = Ok m /\
    _predict_normalized_magnetization (Sample.doubled FITTING)
      (mkTensor [1%nat; 3%nat] [1; 0; 1]%Q) (Sample.vec [1 # 2]%Q) = Ok m' /\
    shape m' = shape m /\ Forall2 Qeq (data m') (data m).
Proof.
  refine (@prediction_invariant_under_density_scaling (Sample.fresh FITTING)
            (Sample.doubled FITTING) (mkTensor [1%nat; 3%nat] [1; 0; 1]%Q)
            (Sample.vec [1 # 2]%Q) 1 1 0 1 2
            _ eq_refl eq_refl eq_refl eq_refl eq_refl eq_refl eq_refl eq_refl
            _ _ eq_refl eq_refl eq_refl eq_refl).
  - split; reflexivity.
  - qfact.
  - qfact.
Defined.

Lemma negative_saturation_is_all_down_prediction_witness :
  get_negative_saturation (Sample.fresh FITTING) = Ok (mkTensor [1%nat] [- (1) + 0]%Q) /\
  exists p,
    _predict_normalized_magnetization (Sample.fresh FITTING)
      (mkTensor [1%nat; 3%nat] [-1; -1; -1]%Q) (zeros 1) = Ok p /\
    Forall2 Qeq (data p) [- (1) + 0]%Q.
Proof.
  pose proof (@negative_saturation_is_all_down_prediction (Sample.fresh FITTING)
                1 0 1 (conj eq_refl eq_refl) eq_refl eq_refl eq_refl
                ltac:(qfact)) as [H1 H2].
  split; [exact H1|].
  destruct (H2 (mkTensor [1%nat; 3%nat] [-1; -1; -1]%Q) eq_refl eq_refl
              ltac:(repeat constructor; qfact)) as (p & Hp & _ & Hq).
  exists p. auto.
Defined.

Lemma apply_fields_success_witness :
  exists models',
    Sample.apply_fields Sample.row2 [Sample.trained FITTING; Sample.fresh NEXT]
    = (models', Ok tt) /\
    length models' = 2%nat /\
    exists column m',
      select_column Sample.row2 1 = Ok column /\
      Sample.apply_field column (Sample.fresh NEXT) = (m', Ok tt) /\
      nth_error models' 1 = Some m'.
Proof.
  eexists. split; [vm_compute; reflexivity|].
  match goal with
  | |- length ?ms = _ /\ _ =>
      destruct (proj1 (proj1 (@apply_fields_success Sample.get_states Sample.row2
                  [Sample.trained FITTING; Sample.fresh NEXT] ms))
                  ltac:(vm_compute; reflexivity)) as [Hlen Hall]
  end.
  split; [exact Hlen|]. exact (Hall 1%nat (Sample.fresh NEXT) eq_refl).
Defined.

Lemma apply_fields_failure_witness :
  exists models' k mk mk',
    Sample.apply_fields Sample.row1 [Sample.trained FITTING; Sample.fresh NEXT]
    = (models', Raise (IndexError "index is out of bounds for dimension 1")) /\
    nth_error [Sample.trained FITTING; Sample.fresh NEXT] k = Some mk /\
    nth_error models' k = Some mk' /\ mk' = mk /\
    forall i, (k < i)%nat ->
      nth_error models' i
      = nth_error [Sample.trained FITTING; Sample.fresh NEXT] i.
Proof.
  eexists.
  match goal with
  | |- exists k mk mk', _ = (?ms, _) /\ _ =>
      destruct (@apply_fields_failure Sample.get_states Sample.row1
                  [Sample.trained FITTING; Sample.fresh NEXT] ms
                  (IndexError "index is out of bounds for dimension 1")
                  ltac:(vm_compute; reflexivity))
        as (_ & k & mk & mk' & Hk & Hk' & _ & Hsame & _ & Hafter)
  end.
  exists k, mk, mk'. split; [vm_compute; reflexivity|].
  split; [exact Hk|]. split; [exact Hk'|].
  split; [apply Hsame; discriminate|exact Hafter].
Defined.

Lemma set_train_data_success_witness :
  exists models',
    Sample.set_train_data Sample.train2 [Sample.fresh FUTURE; Sample.fresh NEXT]
    = (models', Ok tt) /\
    length models' = 2%nat /\
    exists column m',
      nth_error models' 1 = Some m' /\
      select_column Sample.train2 1 = Ok column /\
      mode m' = NEXT.
Proof.
  eexists. split; [vm_compute; reflexivity|].
  match goal with
  | |- length ?ms = _ /\ _ =>
      destruct (@set_train_data_success Sample.get_states Sample.predict_batched_state
                  Sample.HysteresisTransform_new Sample.train2
                  [Sample.fresh FUTURE; Sample.fresh NEXT] ms
                  ltac:(vm_compute; reflexivity)) as [Hlen Hall]
  end.
  split; [exact Hlen|].
  destruct (Hall 1%nat (Sample.fresh NEXT) eq_refl) as (column & m' & Hn & Hc & Hm & _).
  exists column, m'. auto.
Defined.

(** ** Modes and the stored history *)

(** X18.  REGRESSION mode never uses the stored history: on a model with a
    consistent, non-empty cache [forward] returns what it returns on the
    same model with the field history removed. *)
Theorem forward_regression_ignores_history
    (get_states predict_batched_state : states_fn)
    (self : BaseHysteresis) (x : option Tensor) (return_real : bool) (k : nat) :
  mode self = REGRESSION -> cached (S k) self ->
  forward get_states predict_batched_state self x return_real
  = forward get_states predict_batched_state (with_history_h self None) x return_real.
Proof.
  intros Hm (h & st & Hh & Hst & Sh & Wh & Sst & Wst).
  destruct (select_last_vec Sh Wh) as (v & Ev & _).
  destruct (select_last_matrix Sst Wst) as (row & Er & _).
  unfold forward, hasattr_history_h, _check_inside_valid_domain, valid_domain.
  cbn [with_history_h mode transformer _history_h _states mesh_points temp].
  rewrite Hm, Hh, Hst. cbn [isSome getattr rbind]. rewrite Ev, Er.
  cbn [rbind fst snd]. reflexivity.
Qed.

Lemma forward_regression_ignores_history_witness :
  Sample.forward (Sample.trained REGRESSION) (Some (Sample.vec [1 # 4]%Q)) false
  = Sample.forward (with_history_h (Sample.trained REGRESSION) None)
      (Some (Sample.vec [1 # 4]%Q)) false.
Proof.
  refine (@forward_regression_ignores_history Sample.get_states
            Sample.predict_batched_state (Sample.trained REGRESSION)
            (Some (Sample.vec [1 # 4]%Q)) false 2 eq_refl _).
  eexists _, _. repeat split; vm_compute; reflexivity.
Defined.

(** X19.  A model whose field history was built by [apply_field] alone has
    no magnetization history: in FITTING mode every input that passes the
    domain check makes [forward] raise [AttributeError] for [_history_m],
    not a [HysteresisError]. *)
Theorem forward_fitting_without_magnetization
    (get_states predict_batched_state : states_fn)
    (self : BaseHysteresis) (x : Tensor) (return_real : bool) (k : nat) :
  mode self = FITTING -> cached (S k) self -> _history_m self = None ->
  _check_inside_valid_domain self x = Ok tt ->
  forward get_states predict_batched_state self (Some x) return_real
  = Raise (AttributeError "_history_m") /\
  is_HysteresisError (AttributeError "_history_m") = false.
Proof.
  intros Hm (h & st & Hh & Hst & Sh & Wh & Sst & Wst) Hnone Hc.
  destruct (select_last_vec Sh Wh) as (v & Ev & _).
  destruct (select_last_matrix Sst Wst) as (row & Er & _).
  split; [|reflexivity].
  unfold forward, hasattr_history_h.
  rewrite Hc, Hm, Hh, Hst, Hnone. cbn [isSome getattr rbind negb].
  rewrite Ev, Er. reflexivity.
Qed.

Lemma forward_fitting_without_magnetization_witness :
  Sample.forward (with_mode Sample.field_only FITTING) (Some (Sample.vec [1 # 5]%Q)) false
  = Raise (AttributeError "_history_m").
Proof.
  refine (proj1 (@forward_fitting_without_magnetization Sample.get_states
                   Sample.predict_batched_state (with_mode Sample.field_only FITTING)
                   (Sample.vec [1 # 5]%Q) false 0 eq_refl _ _ _)).
  - eexists _, _. repeat split; vm_compute; reflexivity.
  - vm_compute; reflexivity.
  - vm_compute; reflexivity.
Defined.
